(** * DiagramWrapper: key allocation and the diagram-event bridge

    A shallow embedding of [src/components/DiagramWrapper.tsx]: the two
    key-allocation callbacks handed to the [go.GraphLinksModel]
    ([makeUniqueKeyFunction], [makeUniqueLinkKeyFunction]), the two
    lifecycle methods that register and unregister the diagram listener
    ([componentDidMount], [componentWillUnmount]) and the property
    objects of the node and link templates built by [initDiagram].

    Conventions of the embedding.
    - Keys are integers, as in the data model.  The allocators are embedded
      twice: on the integers, where [k++] is [k + 1] and [k--] is [k - 1],
      and, in module [Number], on JavaScript numbers (binary64), where the
      result of [k + 1] and [k - 1] is rounded; the two agree as long as the
      keys probed are safe integers, of magnitude at most [2^53 - 1].
    - A property that is absent ([undefined]) is [None].
    - [data.key = k] mutates the object the caller passed in; the callbacks
      therefore return the object after the call next to the returned key.
    - A [while] loop takes a fuel argument that bounds the number of times
      its condition is evaluated; [None] means the fuel ran out. *)

From stdpp Require Import gmap strings list.
From Stdlib Require Import ZArith Lia Permutation.

Open Scope Z_scope.

(** ** Data *)

(** The value of a property other than the key: a number or a text. *)
Inductive PropValue : Type :=
  | PNumber (n : Z)
  | PText (s : string).

(** [go.ObjectData]: a property bag.  [key] is the property the model is
    configured to use for node keys and ([linkKeyProperty: 'key']) for link
    keys; every other property is kept in [props]. *)
Record ObjectData : Type := mkObjectData {
  key : option Z;
  props : gmap string PropValue
}.

(** [data.key = k] *)
Definition set_key (data : ObjectData) (k : Z) : ObjectData :=
  {| key := Some k; props := props data |}.

(** The part of [go.GraphLinksModel] the callbacks see: the node data and
    the link data it holds ([nodeDataArray], [linkDataArray] of the props). *)
Record Model : Type := mkModel {
  nodeDataArray : list ObjectData;
  linkDataArray : list ObjectData
}.

Definition has_key (k : Z) (d : ObjectData) : bool :=
  bool_decide (key d = Some k).

(** [m.findNodeDataForKey(k)]: the node data whose key is [k], or [null]. *)
Definition findNodeDataForKey (m : Model) (k : Z) : option ObjectData :=
  List.find (has_key k) (nodeDataArray m).

(** [m.findLinkDataForKey(k)]: the link data whose key is [k], or [null]. *)
Definition findLinkDataForKey (m : Model) (k : Z) : option ObjectData :=
  List.find (has_key k) (linkDataArray m).

(** JavaScript [v || d] on an optional number: [undefined] and [0] are
    falsy and give [d]; any other number is truthy and is the result. *)
Definition js_or (v : option Z) (d : Z) : Z :=
  match v with
  | None => d
  | Some 0 => d
  | Some k => k
  end.

(** JavaScript [v ?? d]: only [undefined] gives [d].  Not used by the
    source; the reading of the seed that the specification gives. *)
Definition js_nullish (v : option Z) (d : Z) : Z :=
  match v with
  | None => d
  | Some k => k
  end.

(** ** The key allocators *)

(** [while (m.findNodeDataForKey(k)) k++;] and the value of [k] after it,
    on integers: [k++] is [k + 1].  This is what the source computes as long
    as the keys probed are safe integers; [Number.while_findNode] below is
    the loop on JavaScript numbers. *)
Fixpoint while_findNode (fuel : nat) (m : Model) (k : Z) : option Z :=
  match fuel with
  | O => None
  | S fuel' =>
      match findNodeDataForKey m k with
      | Some _ => while_findNode fuel' m (k + 1)
      | None => Some k
      end
  end.

(** [while (m.findLinkDataForKey(k)) k--;] and the value of [k] after it,
    on integers: [k--] is [k - 1]; see [while_findNode]. *)
Fixpoint while_findLink (fuel : nat) (m : Model) (k : Z) : option Z :=
  match fuel with
  | O => None
  | S fuel' =>
      match findLinkDataForKey m k with
      | Some _ => while_findLink fuel' m (k - 1)
      | None => Some k
      end
  end.

(** [makeUniqueKeyFunction: (m, data) => { let k = data.key || 1;
      while (m.findNodeDataForKey(k)) k++; data.key = k; return k; }]
    The result is the returned key and [data] after the call. *)
Definition makeUniqueKeyFunction (fuel : nat) (m : Model) (data : ObjectData)
  : option (Z * ObjectData) :=
  match while_findNode fuel m (js_or (key data) 1) with
  | Some k => Some (k, set_key data k)
  | None => None
  end.

(** [makeUniqueLinkKeyFunction: (m, data) => { let k = data.key || -1;
      while (m.findLinkDataForKey(k)) k--; data.key = k; return k; }] *)
Definition makeUniqueLinkKeyFunction (fuel : nat) (m : Model) (data : ObjectData)
  : option (Z * ObjectData) :=
  match while_findLink fuel m (js_or (key data) (-1)) with
  | Some k => Some (k, set_key data k)
  | None => None
  end.

(** The keys in use, as the model's lookups see them. *)
Definition keys_of (l : list ObjectData) : list Z := omap key l.
Definition nodeKeys (m : Model) : gset Z := list_to_set (keys_of (nodeDataArray m)).
Definition linkKeys (m : Model) : gset Z := list_to_set (keys_of (linkDataArray m)).

(** ** The allocators on JavaScript numbers *)

(** [Number.MAX_SAFE_INTEGER] *)
Definition MAX_SAFE_INTEGER : Z := 2 ^ 53 - 1.

Definition safe_integer (k : Z) : Prop :=
  - MAX_SAFE_INTEGER ≤ k ∧ k ≤ MAX_SAFE_INTEGER.

Module Number.

(** The binary64 number nearest to the integer [n], ties to the even
    significand (for magnitudes below [2^1024]).  Integers of magnitude up
    to [2^53] are numbers; beyond, the numbers are the multiples of the unit
    in the last place [2^(log2 |n| - 52)]. *)
Definition round (n : Z) : Z :=
  let a := Z.abs n in
  if a <? 2 ^ 53 then n
  else
    let ulp := 2 ^ (Z.log2 a - 52) in
    let q := a / ulp in
    let r := a mod ulp in
    let q' :=
      if 2 * r <? ulp then q
      else if ulp <? 2 * r then q + 1
      else if Z.even q then q else q + 1 in
    Z.sgn n * (q' * ulp).

(** [k++] and [k--] on a number that holds an integer. *)
Definition incr (k : Z) : Z := round (k + 1).
Definition decr (k : Z) : Z := round (k - 1).

(** [while (m.findNodeDataForKey(k)) k++;] *)
Fixpoint while_findNode (fuel : nat) (m : Model) (k : Z) : option Z :=
  match fuel with
  | O => None
  | S fuel' =>
      match findNodeDataForKey m k with
      | Some _ => while_findNode fuel' m (incr k)
      | None => Some k
      end
  end.

(** [while (m.findLinkDataForKey(k)) k--;] *)
Fixpoint while_findLink (fuel : nat) (m : Model) (k : Z) : option Z :=
  match fuel with
  | O => None
  | S fuel' =>
      match findLinkDataForKey m k with
      | Some _ => while_findLink fuel' m (decr k)
      | None => Some k
      end
  end.

(** [makeUniqueKeyFunction], as above, with the loop on numbers. *)
Definition makeUniqueKeyFunction (fuel : nat) (m : Model) (data : ObjectData)
  : option (Z * ObjectData) :=
  match while_findNode fuel m (js_or (key data) 1) with
  | Some k => Some (k, set_key data k)
  | None => None
  end.

(** [makeUniqueLinkKeyFunction], as above, with the loop on numbers. *)
Definition makeUniqueLinkKeyFunction (fuel : nat) (m : Model) (data : ObjectData)
  : option (Z * ObjectData) :=
  match while_findLink fuel m (js_or (key data) (-1)) with
  | Some k => Some (k, set_key data k)
  | None => None
  end.

End Number.

(** ** Creating nodes and links *)

(** Modelled from the spec: the model's insertion operations [addNode] and
    [addLink] belong to the diagram library and are not part of the
    sources.  Section 4.2: an addition "with no key (or a colliding key)
    delegate[s] to the Key Allocator before insertion; the allocated key is
    written back into the entity"; an addition whose key is free keeps it.
    The result is the key the entity was inserted under and the model after
    the insertion. *)
Definition addNode (fuel : nat) (m : Model) (data : ObjectData)
  : option (Z * Model) :=
  let insert k d :=
    (k, {| nodeDataArray := nodeDataArray m ++ [d];
           linkDataArray := linkDataArray m |}) in
  match key data with
  | Some k =>
      match findNodeDataForKey m k with
      | None => Some (insert k data)
      | Some _ =>
          match makeUniqueKeyFunction fuel m data with
          | Some (k', data') => Some (insert k' data')
          | None => None
          end
      end
  | None =>
      match makeUniqueKeyFunction fuel m data with
      | Some (k', data') => Some (insert k' data')
      | None => None
      end
  end.

(** The node key a link datum gives in its [from] or [to] property. *)
Definition endpoint (data : ObjectData) (name : string) : option Z :=
  match props data !! name with
  | Some (PNumber n) => Some n
  | _ => None
  end.

Definition names_node (m : Model) (data : ObjectData) (name : string) : bool :=
  match endpoint data name with
  | Some n =>
      match findNodeDataForKey m n with
      | Some _ => true
      | None => false
      end
  | None => false
  end.

(** Modelled from the spec: the data model, "every Link's [from]/[to] must
    name a Node key present in the current node set at the moment the link
    is committed". *)
Definition link_accepted (m : Model) (data : ObjectData) : bool :=
  names_node m data "from" && names_node m data "to".

(** Modelled from the spec: see [addNode]; and sections 7 and 8, a link
    whose [from] or [to] names no node is "rejected at the mutation call
    [...] the mutation has no effect".  The result is the key the link was
    inserted under and the model after the insertion, or no key and the
    model as it was when the link is rejected. *)
Definition addLink (fuel : nat) (m : Model) (data : ObjectData)
  : option (option Z * Model) :=
  let insert k d :=
    (Some k, {| nodeDataArray := nodeDataArray m;
                linkDataArray := linkDataArray m ++ [d] |}) in
  if link_accepted m data then
    match key data with
    | Some k =>
        match findLinkDataForKey m k with
        | None => Some (insert k data)
        | Some _ =>
            match makeUniqueLinkKeyFunction fuel m data with
            | Some (k', data') => Some (insert k' data')
            | None => None
            end
        end
    | None =>
        match makeUniqueLinkKeyFunction fuel m data with
        | Some (k', data') => Some (insert k' data')
        | None => None
        end
    end
  else Some (None, m).

(** One creation request. *)
Inductive Creation : Type :=
  | NewNode (data : ObjectData)
  | NewLink (data : ObjectData).

Definition requested_key (c : Creation) : option Z :=
  match c with
  | NewNode d => key d
  | NewLink d => key d
  end.

(** The key assigned, if the creation was not rejected, and the model
    after it. *)
Definition create (fuel : nat) (m : Model) (c : Creation)
  : option (option Z * Model) :=
  match c with
  | NewNode d =>
      match addNode fuel m d with
      | Some (k, m') => Some (Some k, m')
      | None => None
      end
  | NewLink d => addLink fuel m d
  end.

(** A sequence of creations, in order; the keys assigned, in the same
    order, and the final model. *)
Fixpoint create_all (fuel : nat) (m : Model) (cs : list Creation)
  : option (list Z * Model) :=
  match cs with
  | [] => Some ([], m)
  | c :: cs' =>
      match create fuel m c with
      | Some (assigned, m') =>
          match create_all fuel m' cs' with
          | Some (ks, m'') =>
              Some (match assigned with Some k => k :: ks | None => ks end, m'')
          | None => None
          end
      | None => None
      end
  end.

(** ** The diagram-event bridge *)

(** The identity of a listener function: [removeDiagramListener] finds the
    listener to remove by comparing function objects. *)
Definition Handler : Type := nat.

(** [go.DiagramEvent]: its name and what it carries. *)
Record DiagramEvent : Type := mkDiagramEvent {
  ev_name : string;
  ev_subject : Z
}.

(** The part of [go.Diagram] the lifecycle methods touch: the registered
    listeners, as (event name, listener) pairs in registration order. *)
Record Diagram : Type := mkDiagram {
  listeners : list (string * Handler)
}.

(** Modelled from the spec: the subscription registry of the editing
    surface is library code outside the sources.  Section 4.4: the bridge
    "subscribes to [...] surface-level event kinds" and "unsubscribes at
    teardown"; "every event is forwarded exactly once, synchronously, in the
    order the editing surface raises it".  Subscribing appends a
    subscription for the named kind. *)
Definition addDiagramListener (name : string) (h : Handler) (d : Diagram) : Diagram :=
  {| listeners := listeners d ++ [(name, h)] |}.

Fixpoint remove_first (x : string * Handler) (l : list (string * Handler))
  : list (string * Handler) :=
  match l with
  | [] => []
  | y :: l' => if decide (x = y) then l' else y :: remove_first x l'
  end.

(** Modelled from the spec: see [addDiagramListener].  Unsubscribing drops
    one subscription of that listener for the named kind, if there is one. *)
Definition removeDiagramListener (name : string) (h : Handler) (d : Diagram) : Diagram :=
  {| listeners := remove_first (name, h) (listeners d) |}.

(** Modelled from the spec: see [addDiagramListener].  Raising an event
    calls, in registration order, every listener subscribed to the event's
    name, each with the event itself; the result is the list of calls. *)
Definition raiseDiagramEvent (d : Diagram) (e : DiagramEvent)
  : list (Handler * DiagramEvent) :=
  (λ p, (p.2, e)) <$> filter (λ p, p.1 = ev_name e) (listeners d).

(** [interface DiagramProps] *)
Record DiagramProps : Type := mkDiagramProps {
  props_nodeDataArray : list ObjectData;
  props_linkDataArray : list ObjectData;
  modelData : ObjectData;
  skipsDiagramUpdate : bool;
  onDiagramEvent : Handler;
  onModelChange : Handler;
  linkToPortIdProperty : string;
  linkFromPortIdProperty : string
}.

(** The [ReactDiagram] child component, seen through [getDiagram()], which
    gives the diagram or [null]. *)
Record ReactDiagram : Type := mkReactDiagram {
  getDiagram : option Diagram
}.

(** [class DiagramWrapper]: its props and [diagramRef.current]. *)
Record DiagramWrapper : Type := mkDiagramWrapper {
  wrapper_props : DiagramProps;
  diagramRef : option ReactDiagram
}.

(** [constructor(props) { super(props); this.diagramRef = React.createRef(); }] *)
Definition constructor (p : DiagramProps) : DiagramWrapper :=
  {| wrapper_props := p; diagramRef := None |}.

(** The diagram behind the ref, when both guards of the lifecycle methods
    pass ([this.diagramRef.current] is set and [getDiagram()] is a
    [go.Diagram]). *)
Definition diagram_of (c : DiagramWrapper) : option Diagram :=
  match diagramRef c with
  | None => None
  | Some rd => getDiagram rd
  end.

Definition with_diagram (c : DiagramWrapper) (d : Diagram) : DiagramWrapper :=
  {| wrapper_props := wrapper_props c;
     diagramRef := Some {| getDiagram := Some d |} |}.

(** [componentDidMount() {
      if (!this.diagramRef.current) return;
      const diagram = this.diagramRef.current.getDiagram();
      if (diagram instanceof go.Diagram)
        diagram.addDiagramListener('ChangedSelection', this.props.onDiagramEvent); }] *)
Definition componentDidMount (c : DiagramWrapper) : DiagramWrapper :=
  match diagramRef c with
  | None => c
  | Some rd =>
      match getDiagram rd with
      | Some diagram =>
          with_diagram c
            (addDiagramListener "ChangedSelection"
               (onDiagramEvent (wrapper_props c)) diagram)
      | None => c
      end
  end.

(** [componentWillUnmount() {
      if (!this.diagramRef.current) return;
      const diagram = this.diagramRef.current.getDiagram();
      if (diagram instanceof go.Diagram)
        diagram.removeDiagramListener('ChangedSelection', this.props.onDiagramEvent); }] *)
Definition componentWillUnmount (c : DiagramWrapper) : DiagramWrapper :=
  match diagramRef c with
  | None => c
  | Some rd =>
      match getDiagram rd with
      | Some diagram =>
          with_diagram c
            (removeDiagramListener "ChangedSelection"
               (onDiagramEvent (wrapper_props c)) diagram)
      | None => c
      end
  end.

(** A re-render by the parent: the component keeps its ref and from now on
    reads the new props through [this.props]; the class defines no update
    hook, so nothing else happens. *)
Definition rerender (c : DiagramWrapper) (p : DiagramProps) : DiagramWrapper :=
  {| wrapper_props := p; diagramRef := diagramRef c |}.

(** What the listeners registered on the wrapper's diagram are called with
    when the surface raises [e]; nothing when there is no diagram. *)
Definition calls_on (c : DiagramWrapper) (e : DiagramEvent)
  : list (Handler * DiagramEvent) :=
  match diagram_of c with
  | Some d => raiseDiagramEvent d e
  | None => []
  end.

Definition listeners_of (c : DiagramWrapper) : list (string * Handler) :=
  match diagram_of c with
  | Some d => listeners d
  | None => []
  end.

(** ** The node and link templates *)

(** The property object given to a part template, restricted to the
    interaction flags.  An unset flag keeps the part's default. *)
Record PartFlags : Type := mkPartFlags {
  copyable : option bool;
  deletable : option bool;
  relinkableFrom : option bool;
  relinkableTo : option bool
}.

(** A top-level data binding of a template: target property of the part,
    source property of the data. *)
Record Binding : Type := mkBinding {
  target : string;
  source : string
}.

Record PartTemplate : Type := mkPartTemplate {
  flags : PartFlags;
  bindings : list Binding
}.

(** [diagram.nodeTemplate = $(go.Node, "Auto",
      {copyable: false, deletable: false},
      new go.Binding("location", "loc", go.Point.parse).makeTwoWay(...), ...)] *)
Definition nodeTemplate : PartTemplate :=
  {| flags := {| copyable := Some false; deletable := Some false;
                 relinkableFrom := None; relinkableTo := None |};
     bindings := [ {| target := "location"; source := "loc" |} ] |}.

(** [diagram.linkTemplate = $(go.Link,
      {relinkableFrom: true, relinkableTo: true, toShortLength: 4, fromShortLength: 2}, ...)] *)
Definition linkTemplate : PartTemplate :=
  {| flags := {| copyable := None; deletable := None;
                 relinkableFrom := Some true; relinkableTo := Some true |};
     bindings := [] |}.

(** ** Examples *)

Definition datum (k : option Z) (text : string) : ObjectData :=
  {| key := k; props := {[ "text"%string := PText text ]} |}.

Definition model_1 : Model :=
  {| nodeDataArray := [datum (Some 1) "A"]; linkDataArray := [] |}.

Definition empty_model : Model := {| nodeDataArray := []; linkDataArray := [] |}.

(** The model of the deletion scenario of section 8: nodes 1 and 2 and the
    link -1 between them. *)
Definition model_12 : Model :=
  {| nodeDataArray := [datum (Some 1) "A"; datum (Some 2) "B"];
     linkDataArray := [datum (Some (-1)) "A-B"] |}.

(** A link datum with its two endpoints. *)
Definition link_datum (k : option Z) (from to : Z) : ObjectData :=
  {| key := k;
     props := {[ "from"%string := PNumber from; "to"%string := PNumber to ]} |}.

(** Two nodes and three links are asked for; the second link names node 99,
    which does not exist. *)
Definition session : list Creation :=
  [NewNode (datum None "C"); NewLink (link_datum None 1 3);
   NewLink (link_datum None 99 1);
   NewNode (datum (Some 1) "A'"); NewLink (link_datum (Some (-1)) 2 4)].

(** A model whose one node has key [2^53] and whose one link has key
    [-2^53], the first integers past the safe ones. *)
Definition model_edge : Model :=
  {| nodeDataArray := [datum (Some (2 ^ 53)) "N"];
     linkDataArray := [datum (Some (- 2 ^ 53)) "L"] |}.

(** A wrapper after its first render: the handler given at construction is
    listener 7 and the ref holds a fresh diagram. *)
Definition props_0 : DiagramProps :=
  {| props_nodeDataArray := nodeDataArray model_12;
     props_linkDataArray := linkDataArray model_12;
     modelData := {| key := None; props := ∅ |};
     skipsDiagramUpdate := false;
     onDiagramEvent := 7%nat;
     onModelChange := 8%nat;
     linkToPortIdProperty := "toPort";
     linkFromPortIdProperty := "fromPort" |}.

Definition mounted_wrapper_0 : DiagramWrapper :=
  with_diagram (constructor props_0) (mkDiagram []).

(** The props of a later render: the same data, another handler function. *)
Definition props_9 : DiagramProps :=
  {| props_nodeDataArray := props_nodeDataArray props_0;
     props_linkDataArray := props_linkDataArray props_0;
     modelData := modelData props_0;
     skipsDiagramUpdate := skipsDiagramUpdate props_0;
     onDiagramEvent := 9%nat;
     onModelChange := onModelChange props_0;
     linkToPortIdProperty := linkToPortIdProperty props_0;
     linkFromPortIdProperty := linkFromPortIdProperty props_0 |}.

(** A model in which a node has a negative key and a link a positive one. *)
Definition model_crossed : Model :=
  {| nodeDataArray := [datum (Some (-1)) "N"];
     linkDataArray := [datum (Some 1) "L"] |}.

(** The keys of [model_12] in another order, with another text and with a
    repeated entry. *)
Definition model_12_shuffled : Model :=
  {| nodeDataArray := [datum (Some 2) "B"; datum (Some 1) "A'"; datum (Some 2) "B"];
     linkDataArray := [datum (Some (-1)) "A-B"; datum (Some (-1)) "B-A"] |}.

(** Nodes 1 and 3, links -1 and -3: key 2 and key -2 are gaps. *)
Definition model_gap : Model :=
  {| nodeDataArray := [datum (Some 1) "A"; datum (Some 3) "C"];
     linkDataArray := [datum (Some (-1)) "A-C"; datum (Some (-3)) "C-A"] |}.

(** A wrapper whose diagram already has the bridge's subscription between
    two subscriptions of other parties. *)
Definition busy_wrapper_0 : DiagramWrapper :=
  with_diagram (constructor props_0)
    (mkDiagram [("ChangedSelection"%string, 9%nat); ("ChangedSelection"%string, 7%nat);
                ("Modified"%string, 7%nat)]).

(** ** Sequences of lifecycle calls and of events *)

(** The model [m] after the node datum [d] was appended to its node data,
    and after the link datum [d] was appended to its link data. *)
Definition with_node (m : Model) (d : ObjectData) : Model :=
  {| nodeDataArray := nodeDataArray m ++ [d]; linkDataArray := linkDataArray m |}.

Definition with_link (m : Model) (d : ObjectData) : Model :=
  {| nodeDataArray := nodeDataArray m; linkDataArray := linkDataArray m ++ [d] |}.

(** A creation whose probe stays within the safe integers when at most
    [nodes] node keys and [links] link keys are in use. *)
Definition safe_creation (nodes links : nat) (c : Creation) : Prop :=
  match c with
  | NewNode d =>
      let seed := match key d with
                  | Some k0 => if decide (k0 = 0) then 1 else k0
                  | None => 1
                  end in
      safe_integer seed ∧ safe_integer (seed + Z.of_nat nodes)
  | NewLink d =>
      let seed := match key d with
                  | Some k0 => if decide (k0 = 0) then -1 else k0
                  | None => -1
                  end in
      safe_integer seed ∧ safe_integer (seed - Z.of_nat links)
  end.

(** One mount followed by one unmount of the same wrapper. *)
Definition remount (c : DiagramWrapper) : DiagramWrapper :=
  componentWillUnmount (componentDidMount c).

(** The calls made while the surface raises the events [es], one after the
    other, on the wrapper's diagram. *)
Definition raise_all (c : DiagramWrapper) (es : list DiagramEvent)
  : list (Handler * DiagramEvent) :=
  concat (calls_on c <$> es).

(** The subscription the bridge manages for a wrapper. *)
Definition own_subscription (c : DiagramWrapper) : string * Handler :=
  ("ChangedSelection"%string, onDiagramEvent (wrapper_props c)).

(** ** The probe loop, once for both directions *)

(** Both [while] loops are the same loop up to the lookup and the
    direction: test the candidate, move by [dir] while it is taken. *)
Fixpoint probe (occupied : Z → bool) (dir : Z) (fuel : nat) (k : Z) : option Z :=
  match fuel with
  | O => None
  | S fuel' =>
      if occupied k then probe occupied dir fuel' (k + dir) else Some k
  end.

Definition node_taken (m : Model) (k : Z) : bool :=
  bool_decide (is_Some (findNodeDataForKey m k)).

Definition link_taken (m : Model) (k : Z) : bool :=
  bool_decide (is_Some (findLinkDataForKey m k)).

(** The specification's reading of the allocators, section 4.1: "start
    from [requestedKey ?? 1]; while the candidate collides [...] increment
    by 1; return the first free value", and the mirror image for links. *)
Definition spec_allocateNodeKey (fuel : nat) (m : Model) (requestedKey : option Z)
  : option Z :=
  probe (node_taken m) 1 fuel (js_nullish requestedKey 1).

Definition spec_allocateLinkKey (fuel : nat) (m : Model) (requestedKey : option Z)
  : option Z :=
  probe (link_taken m) (-1) fuel (js_nullish requestedKey (-1)).

(** ** Facts about the probe loop *)

Lemma size_remove (X : gset Z) (k : Z) :
  k ∈ X → size X = S (size (X ∖ {[k]})).
Proof.
  intros Hk.
  assert (Hsub : ({[k]} : gset Z) ⊆ X) by (by apply singleton_subseteq_l).
  assert (Hdisj : ({[k]} : gset Z) ## X ∖ {[k]}).
  { apply disjoint_singleton_l. rewrite elem_of_difference, elem_of_singleton.
    tauto. }
  pose proof (size_union _ _ Hdisj) as Hu.
  rewrite <- (union_difference_L _ _ Hsub) in Hu.
  rewrite size_singleton in Hu. lia.
Qed.

Section ProbeFacts.
Variable occupied : Z → bool.
Variable dir : Z.

(** The loop returns the first candidate that is not taken: it made [n]
    moves, every candidate before the result was taken. *)
Lemma probe_sound fuel k r :
  probe occupied dir fuel k = Some r →
  ∃ n : nat,
    (n < fuel)%nat ∧ r = k + dir * Z.of_nat n ∧ occupied r = false ∧
    ∀ i : nat, (i < n)%nat → occupied (k + dir * Z.of_nat i) = true.
Proof.
  revert k. induction fuel as [|fuel IH]; intros k Hr; simpl in Hr.
  - discriminate.
  - destruct (occupied k) eqn:Hk.
    + destruct (IH _ Hr) as (n & Hn & -> & Hfree & Hbelow).
      exists (S n). split; [lia|]. split; [lia|]. split.
      * exact Hfree.
      * intros [|i] Hi.
        -- rewrite <- Hk. f_equal. lia.
        -- rewrite <- (Hbelow i) by lia. f_equal. lia.
    + injection Hr as <-. exists 0%nat.
      split; [lia|]. split; [lia|]. split.
      * exact Hk.
      * intros i Hi. lia.
Qed.

(** More fuel never changes a result. *)
Lemma probe_mono fuel fuel' k r :
  probe occupied dir fuel k = Some r → (fuel ≤ fuel')%nat →
  probe occupied dir fuel' k = Some r.
Proof.
  revert fuel' k. induction fuel as [|fuel IH]; intros fuel' k Hr Hle; simpl in Hr.
  - discriminate.
  - destruct fuel' as [|fuel']; [lia|]. simpl.
    destruct (occupied k); [|exact Hr].
    apply IH; [exact Hr | lia].
Qed.

Lemma probe_fuel_irrelevant f1 f2 k r1 r2 :
  probe occupied dir f1 k = Some r1 → probe occupied dir f2 k = Some r2 →
  r1 = r2.
Proof.
  intros H1 H2.
  apply (probe_mono _ (f1 `max` f2)%nat) in H1; [|lia].
  apply (probe_mono _ (f1 `max` f2)%nat) in H2; [|lia].
  congruence.
Qed.

Hypothesis dir_nonzero : dir ≠ 0.

(** [n] consecutive candidates that all lie in a finite set are at most
    as many as the set has elements. *)
Lemma run_in_set_bound (X : gset Z) (n : nat) k :
  (∀ i : nat, (i < n)%nat → k + dir * Z.of_nat i ∈ X) → (n ≤ size X)%nat.
Proof.
  revert X k. induction n as [|n IH]; intros X k Hin; [lia|].
  assert (Hk : k ∈ X).
  { replace k with (k + dir * Z.of_nat 0) by lia. apply Hin. lia. }
  rewrite (size_remove X k Hk). apply le_n_S. apply (IH _ (k + dir)).
  intros i Hi. apply elem_of_difference. split.
  - replace (k + dir + dir * Z.of_nat i) with (k + dir * Z.of_nat (S i)) by lia.
    apply Hin. lia.
  - rewrite elem_of_singleton. nia.
Qed.

(** When the taken candidates ahead of [k] lie in a finite set, fuel
    beyond the size of the set is enough. *)
Lemma probe_total (X : gset Z) fuel k :
  (∀ i : nat, occupied (k + dir * Z.of_nat i) = true → k + dir * Z.of_nat i ∈ X) →
  (size X < fuel)%nat →
  ∃ r, probe occupied dir fuel k = Some r.
Proof.
  revert X k. induction fuel as [|fuel IH]; intros X k Hocc Hsz; [lia|].
  simpl. destruct (occupied k) eqn:Hk; [|eauto].
  assert (HkX : k ∈ X).
  { replace k with (k + dir * Z.of_nat 0) by lia. apply Hocc.
    rewrite <- Hk. f_equal. lia. }
  apply (IH (X ∖ {[k]})).
  - intros i Hi. apply elem_of_difference. split.
    + replace (k + dir + dir * Z.of_nat i) with (k + dir * Z.of_nat (S i)) in * by lia.
      apply Hocc, Hi.
    + rewrite elem_of_singleton. nia.
  - rewrite (size_remove X k HkX) in Hsz. lia.
Qed.
End ProbeFacts.

(** ** The model's lookups and the key sets *)

Lemma find_key_taken (l : list ObjectData) (k : Z) :
  is_Some (List.find (has_key k) l) ↔ k ∈ (list_to_set (keys_of l) : gset Z).
Proof.
  rewrite elem_of_list_to_set. unfold keys_of. rewrite list_elem_of_omap.
  split.
  - intros [d Hd]. apply List.find_some in Hd as [Hin Hk].
    exists d. split; [by apply list_elem_of_In|].
    unfold has_key in Hk. by apply bool_decide_eq_true in Hk.
  - intros (d & Hin & Hk).
    destruct (List.find (has_key k) l) as [d'|] eqn:Hfind; [by eexists|].
    apply list_elem_of_In in Hin.
    pose proof (List.find_none _ _ Hfind d Hin) as Hno.
    unfold has_key in Hno. apply bool_decide_eq_false in Hno. contradiction.
Qed.

Lemma find_key_found (l : list ObjectData) (k : Z) (d : ObjectData) :
  List.find (has_key k) l = Some d → key d = Some k.
Proof.
  intros Hd. apply List.find_some in Hd as [_ Hk].
  unfold has_key in Hk. by apply bool_decide_eq_true in Hk.
Qed.

Lemma node_taken_spec m k : node_taken m k = true ↔ k ∈ nodeKeys m.
Proof.
  unfold node_taken, nodeKeys, findNodeDataForKey.
  rewrite bool_decide_eq_true. apply find_key_taken.
Qed.

Lemma link_taken_spec m k : link_taken m k = true ↔ k ∈ linkKeys m.
Proof.
  unfold link_taken, linkKeys, findLinkDataForKey.
  rewrite bool_decide_eq_true. apply find_key_taken.
Qed.

Lemma node_found_spec m k : is_Some (findNodeDataForKey m k) ↔ k ∈ nodeKeys m.
Proof. apply find_key_taken. Qed.

Lemma link_found_spec m k : is_Some (findLinkDataForKey m k) ↔ k ∈ linkKeys m.
Proof. apply find_key_taken. Qed.

Lemma node_free_spec m k : findNodeDataForKey m k = None ↔ k ∉ nodeKeys m.
Proof.
  rewrite <- node_taken_spec. unfold node_taken.
  rewrite bool_decide_eq_true, <- eq_None_not_Some. tauto.
Qed.

Lemma link_free_spec m k : findLinkDataForKey m k = None ↔ k ∉ linkKeys m.
Proof.
  rewrite <- link_taken_spec. unfold link_taken.
  rewrite bool_decide_eq_true, <- eq_None_not_Some. tauto.
Qed.

(** The two loops of the source are the probe loop, upwards over the node
    keys and downwards over the link keys. *)
Lemma while_findNode_probe fuel m k :
  while_findNode fuel m k = probe (node_taken m) 1 fuel k.
Proof.
  revert k. induction fuel as [|fuel IH]; intros k; simpl; [reflexivity|].
  unfold node_taken at 1.
  destruct (findNodeDataForKey m k) as [d|] eqn:Hd.
  - rewrite bool_decide_eq_true_2 by eauto. apply IH.
  - rewrite bool_decide_eq_false_2; [reflexivity|]. by intros [? ?].
Qed.

Lemma while_findLink_probe fuel m k :
  while_findLink fuel m k = probe (link_taken m) (-1) fuel k.
Proof.
  revert k. induction fuel as [|fuel IH]; intros k; simpl; [reflexivity|].
  unfold link_taken at 1.
  destruct (findLinkDataForKey m k) as [d|] eqn:Hd.
  - rewrite bool_decide_eq_true_2 by eauto.
    replace (k + -1) with (k - 1) by lia. apply IH.
  - rewrite bool_decide_eq_false_2; [reflexivity|]. by intros [? ?].
Qed.

(** What the upward loop returns: the first key from [k] upwards that no
    node has, found after [r - k] increments. *)
Lemma while_findNode_first_free fuel m k r :
  while_findNode fuel m k = Some r →
  k ≤ r ∧ (r ∉ nodeKeys m) ∧ (∀ j, k ≤ j → j < r → j ∈ nodeKeys m) ∧
  r - k ≤ Z.of_nat (size (nodeKeys m)) ∧ r - k < Z.of_nat fuel.
Proof.
  rewrite while_findNode_probe. intros Hr.
  apply probe_sound in Hr as (n & Hn & -> & Hfree & Hbelow).
  assert (Hrun : ∀ i : nat, (i < n)%nat → k + 1 * Z.of_nat i ∈ nodeKeys m).
  { intros i Hi. apply node_taken_spec, Hbelow, Hi. }
  split; [lia|]. split.
  { rewrite <- node_taken_spec, Hfree. discriminate. }
  split.
  { intros j Hj1 Hj2. replace j with (k + 1 * Z.of_nat (Z.to_nat (j - k))) by lia.
    apply Hrun. lia. }
  pose proof (run_in_set_bound 1 ltac:(lia) _ _ _ Hrun). lia.
Qed.

(** What the downward loop returns: the first key from [k] downwards that
    no link has, found after [k - r] decrements. *)
Lemma while_findLink_first_free fuel m k r :
  while_findLink fuel m k = Some r →
  r ≤ k ∧ (r ∉ linkKeys m) ∧ (∀ j, r < j → j ≤ k → j ∈ linkKeys m) ∧
  k - r ≤ Z.of_nat (size (linkKeys m)) ∧ k - r < Z.of_nat fuel.
Proof.
  rewrite while_findLink_probe. intros Hr.
  apply probe_sound in Hr as (n & Hn & -> & Hfree & Hbelow).
  assert (Hrun : ∀ i : nat, (i < n)%nat → k + -1 * Z.of_nat i ∈ linkKeys m).
  { intros i Hi. apply link_taken_spec, Hbelow, Hi. }
  split; [lia|]. split.
  { rewrite <- link_taken_spec, Hfree. discriminate. }
  split.
  { intros j Hj1 Hj2. replace j with (k + -1 * Z.of_nat (Z.to_nat (k - j))) by lia.
    apply Hrun. lia. }
  pose proof (run_in_set_bound (-1) ltac:(lia) _ _ _ Hrun). lia.
Qed.

(** Both loops end: fuel beyond the number of keys in use is enough. *)
Lemma while_findNode_total fuel m k :
  (size (nodeKeys m) < fuel)%nat → ∃ r, while_findNode fuel m k = Some r.
Proof.
  intros Hsz. rewrite while_findNode_probe.
  apply (probe_total _ 1 ltac:(lia) (nodeKeys m)); [|exact Hsz].
  intros i Hi. by apply node_taken_spec.
Qed.

Lemma while_findLink_total fuel m k :
  (size (linkKeys m) < fuel)%nat → ∃ r, while_findLink fuel m k = Some r.
Proof.
  intros Hsz. rewrite while_findLink_probe.
  apply (probe_total _ (-1) ltac:(lia) (linkKeys m)); [|exact Hsz].
  intros i Hi. by apply link_taken_spec.
Qed.

Lemma while_findNode_fuel f1 f2 m k r1 r2 :
  while_findNode f1 m k = Some r1 → while_findNode f2 m k = Some r2 → r1 = r2.
Proof. rewrite !while_findNode_probe. apply probe_fuel_irrelevant. Qed.

Lemma while_findLink_fuel f1 f2 m k r1 r2 :
  while_findLink f1 m k = Some r1 → while_findLink f2 m k = Some r2 → r1 = r2.
Proof. rewrite !while_findLink_probe. apply probe_fuel_irrelevant. Qed.

(** ** The allocators *)

Lemma makeUniqueKeyFunction_inv fuel m data k data' :
  makeUniqueKeyFunction fuel m data = Some (k, data') →
  while_findNode fuel m (js_or (key data) 1) = Some k ∧ data' = set_key data k.
Proof.
  unfold makeUniqueKeyFunction.
  destruct (while_findNode fuel m (js_or (key data) 1)) as [r|]; [|discriminate].
  intros [= <- <-]. split; reflexivity.
Qed.

Lemma makeUniqueLinkKeyFunction_inv fuel m data k data' :
  makeUniqueLinkKeyFunction fuel m data = Some (k, data') →
  while_findLink fuel m (js_or (key data) (-1)) = Some k ∧ data' = set_key data k.
Proof.
  unfold makeUniqueLinkKeyFunction.
  destruct (while_findLink fuel m (js_or (key data) (-1))) as [r|]; [|discriminate].
  intros [= <- <-]. split; reflexivity.
Qed.

Lemma makeUniqueKeyFunction_total fuel m data :
  (size (nodeKeys m) < fuel)%nat →
  ∃ k, makeUniqueKeyFunction fuel m data = Some (k, set_key data k) ∧
       while_findNode fuel m (js_or (key data) 1) = Some k.
Proof.
  intros Hsz.
  destruct (while_findNode_total fuel m (js_or (key data) 1) Hsz) as [k Hk].
  exists k. unfold makeUniqueKeyFunction. rewrite Hk. split; reflexivity.
Qed.

Lemma makeUniqueLinkKeyFunction_total fuel m data :
  (size (linkKeys m) < fuel)%nat →
  ∃ k, makeUniqueLinkKeyFunction fuel m data = Some (k, set_key data k) ∧
       while_findLink fuel m (js_or (key data) (-1)) = Some k.
Proof.
  intros Hsz.
  destruct (while_findLink_total fuel m (js_or (key data) (-1)) Hsz) as [k Hk].
  exists k. unfold makeUniqueLinkKeyFunction. rewrite Hk. split; reflexivity.
Qed.

(** The seeds: an unset key and a key of [0] both give the default. *)
Lemma js_or_unset d : js_or None d = d.
Proof. reflexivity. Qed.

Lemma js_or_zero d : js_or (Some 0) d = d.
Proof. reflexivity. Qed.

Lemma js_or_nonzero k d : k ≠ 0 → js_or (Some k) d = k.
Proof. destruct k; [congruence| reflexivity | reflexivity]. Qed.

Lemma nodeKeys_model_1 : nodeKeys model_1 = {[1]}.
Proof. unfold nodeKeys. simpl. set_solver. Qed.

Lemma linkKeys_model_1 : linkKeys model_1 = ∅.
Proof. reflexivity. Qed.

Lemma size_nodeKeys_model_1 : size (nodeKeys model_1) = 1%nat.
Proof. rewrite nodeKeys_model_1. apply size_singleton. Qed.

Lemma size_nodeKeys_model_12 : size (nodeKeys model_12) = 2%nat.
Proof. vm_compute. reflexivity. Qed.

Lemma size_linkKeys_model_12 : size (linkKeys model_12) = 1%nat.
Proof. vm_compute. reflexivity. Qed.

Example alloc_model_1 :
  makeUniqueKeyFunction 5 model_1 (datum None "C") = Some (2, datum (Some 2) "C").
Proof. vm_compute. reflexivity. Qed.

(** ** Numbers and integers *)

Lemma pow_2_53 : 2 ^ 53 = 9007199254740992.
Proof. reflexivity. Qed.

Lemma safe_integer_bounds k :
  safe_integer k ↔ - 9007199254740991 ≤ k ∧ k ≤ 9007199254740991.
Proof. unfold safe_integer, MAX_SAFE_INTEGER. rewrite pow_2_53. lia. Qed.

Ltac safe_lia :=
  unfold safe_integer, MAX_SAFE_INTEGER in *; rewrite ?pow_2_53 in *; lia.

(** Integers of magnitude up to [2^53] are numbers. *)
Lemma number_round_exact n :
  - 2 ^ 53 ≤ n → n ≤ 2 ^ 53 → Number.round n = n.
Proof.
  intros Hlo Hhi. unfold Number.round.
  destruct (Z.ltb_spec (Z.abs n) (2 ^ 53)) as [Hlt|Hge]; [reflexivity|].
  rewrite pow_2_53 in *.
  assert (n = 9007199254740992 ∨ n = - 9007199254740992) as [-> | ->] by lia;
    reflexivity.
Qed.

Lemma number_incr_exact k :
  - 2 ^ 53 ≤ k → k < 2 ^ 53 → Number.incr k = k + 1.
Proof.
  intros Hlo Hhi. unfold Number.incr. apply number_round_exact; lia.
Qed.

Lemma number_decr_exact k :
  - 2 ^ 53 < k → k ≤ 2 ^ 53 → Number.decr k = k - 1.
Proof.
  intros Hlo Hhi. unfold Number.decr. apply number_round_exact; lia.
Qed.

(** At [2^53] the increment is lost, at [-2^53] the decrement. *)
Lemma number_incr_stuck : Number.incr (2 ^ 53) = 2 ^ 53.
Proof. reflexivity. Qed.

Lemma number_decr_stuck : Number.decr (- 2 ^ 53) = - 2 ^ 53.
Proof. reflexivity. Qed.

Example number_incr_past_2_53 :
  Number.incr (2 ^ 53 + 2) = 2 ^ 53 + 4 ∧ Number.incr (2 ^ 54) = 2 ^ 54 ∧
  Number.decr (- 2 ^ 53 - 2) = - 2 ^ 53 - 4 ∧ Number.incr (2 ^ 53 - 1) = 2 ^ 53.
Proof. repeat split. Qed.

(** A loop on numbers that starts on a taken key on which the step is lost
    never ends. *)
Lemma number_while_findNode_stuck m fuel :
  is_Some (findNodeDataForKey m (2 ^ 53)) →
  Number.while_findNode fuel m (2 ^ 53) = None.
Proof.
  intros [d Hd]. induction fuel as [|fuel IH]; [reflexivity|].
  simpl. rewrite Hd, number_incr_stuck. exact IH.
Qed.

Lemma number_while_findLink_stuck m fuel :
  is_Some (findLinkDataForKey m (- 2 ^ 53)) →
  Number.while_findLink fuel m (- 2 ^ 53) = None.
Proof.
  intros [d Hd]. induction fuel as [|fuel IH]; [reflexivity|].
  simpl. rewrite Hd, number_decr_stuck. exact IH.
Qed.

(** When the loop on integers stays within [-2^53 .. 2^53], the loop on
    numbers does the same steps. *)
Lemma number_while_findNode_exact fuel m k r :
  while_findNode fuel m k = Some r → - 2 ^ 53 ≤ k → r ≤ 2 ^ 53 →
  Number.while_findNode fuel m k = Some r.
Proof.
  revert k. induction fuel as [|fuel IH]; intros k Hr Hlo Hhi; simpl in *.
  - discriminate.
  - destruct (findNodeDataForKey m k) as [d|]; [|exact Hr].
    destruct (while_findNode_first_free _ _ _ _ Hr) as (Hle & _).
    rewrite number_incr_exact by lia. apply IH; [exact Hr | lia | exact Hhi].
Qed.

Lemma number_while_findLink_exact fuel m k r :
  while_findLink fuel m k = Some r → k ≤ 2 ^ 53 → - 2 ^ 53 ≤ r →
  Number.while_findLink fuel m k = Some r.
Proof.
  revert k. induction fuel as [|fuel IH]; intros k Hr Hhi Hlo; simpl in *.
  - discriminate.
  - destruct (findLinkDataForKey m k) as [d|]; [|exact Hr].
    destruct (while_findLink_first_free _ _ _ _ Hr) as (Hle & _).
    rewrite number_decr_exact by lia. apply IH; [exact Hr | lia | exact Hlo].
Qed.

(** On safe integers the allocators on numbers are the allocators on
    integers: when the seed and the farthest key the probe can reach are safe
    integers, both return the same. *)
Lemma number_makeUniqueKeyFunction_exact fuel m data :
  (size (nodeKeys m) < fuel)%nat →
  safe_integer (js_or (key data) 1) →
  safe_integer (js_or (key data) 1 + Z.of_nat (size (nodeKeys m))) →
  Number.makeUniqueKeyFunction fuel m data = makeUniqueKeyFunction fuel m data.
Proof.
  intros Hsz Hseed Hfar.
  destruct (makeUniqueKeyFunction_total fuel m data Hsz) as (k & Hmk & Hloop).
  destruct (while_findNode_first_free _ _ _ _ Hloop) as (_ & _ & _ & Hbound & _).
  rewrite Hmk. unfold Number.makeUniqueKeyFunction.
  rewrite (number_while_findNode_exact _ _ _ _ Hloop); [reflexivity | |];
    safe_lia.
Qed.

Lemma number_makeUniqueLinkKeyFunction_exact fuel m data :
  (size (linkKeys m) < fuel)%nat →
  safe_integer (js_or (key data) (-1)) →
  safe_integer (js_or (key data) (-1) - Z.of_nat (size (linkKeys m))) →
  Number.makeUniqueLinkKeyFunction fuel m data = makeUniqueLinkKeyFunction fuel m data.
Proof.
  intros Hsz Hseed Hfar.
  destruct (makeUniqueLinkKeyFunction_total fuel m data Hsz) as (k & Hmk & Hloop).
  destruct (while_findLink_first_free _ _ _ _ Hloop) as (_ & _ & _ & Hbound & _).
  rewrite Hmk. unfold Number.makeUniqueLinkKeyFunction.
  rewrite (number_while_findLink_exact _ _ _ _ Hloop); [reflexivity | |];
    safe_lia.
Qed.

(** The seed [data.key || d], by cases on the key. *)
Lemma js_or_cases v d :
  js_or v d = match v with
              | Some k0 => if decide (k0 = 0) then d else k0
              | None => d
              end.
Proof.
  destruct v as [k0|]; [|reflexivity].
  destruct (decide (k0 = 0)) as [->|Hne]; [reflexivity|].
  by apply js_or_nonzero.
Qed.

(** C1, as the specification words it: the node allocator seeds at
    [requestedKey ?? 1].  This fails for a requested key of [0] on the empty
    model: [0 ?? 1] is [0], which is free, but the source seeds with
    [data.key || 1] and returns [1].  (And a keyless node gets key 2 only
    when 2 is free: on a model with node keys 1 and 2 it gets 3.) *)
Lemma node_seed_is_not_nullish :
  spec_allocateNodeKey 1 empty_model (Some 0) = Some 0 ∧
  makeUniqueKeyFunction 1 empty_model (datum (Some 0) "C")
    = Some (1, datum (Some 1) "C") ∧
  ¬ (∀ fuel m data,
       fst <$> makeUniqueKeyFunction fuel m data
       = spec_allocateNodeKey fuel m (key data)) ∧
  (is_Some (findNodeDataForKey model_12 1) ∧
   makeUniqueKeyFunction 3 model_12 (datum None "C")
   = Some (3, datum (Some 3) "C")).
Proof.
  split; [reflexivity|]. split; [reflexivity|]. split.
  - intros H. specialize (H 1%nat empty_model (datum (Some 0) "C")).
    vm_compute in H. discriminate H.
  - split; [by eexists | reflexivity].
Qed.

(** C1, amended: node key allocation is a linear upward probe.  For any
    model and any node datum, as long as the keys involved are safe integers
    (the seed, and the farthest key the probe can reach, are of magnitude at
    most [2^53 - 1]), the allocator starts from [data.key || 1] (the
    requested key when it is set and not [0], else [1]), increments by 1
    while the candidate is the key of an existing node, and returns the first
    free value, which it also stores in the datum.  In particular a keyless
    node added to a model that has node key 1 (and not 2) gets key 2. *)
Theorem makeUniqueKeyFunction_linear_probe fuel m data seed :
  seed = match key data with
         | Some k0 => if decide (k0 = 0) then 1 else k0
         | None => 1
         end →
  safe_integer seed →
  safe_integer (seed + Z.of_nat (size (nodeKeys m))) →
  (size (nodeKeys m) < fuel)%nat →
  ∃ k,
    makeUniqueKeyFunction fuel m data = Some (k, set_key data k) ∧
    seed ≤ k ∧
    (∀ j, seed ≤ j → j < k → is_Some (findNodeDataForKey m j)) ∧
    findNodeDataForKey m k = None ∧
    safe_integer k ∧
    (key data = None → is_Some (findNodeDataForKey m 1) →
     findNodeDataForKey m 2 = None →
     k = 2 ∧
     addNode fuel m data
     = Some (2, {| nodeDataArray := nodeDataArray m ++ [set_key data 2];
                   linkDataArray := linkDataArray m |})).
Proof.
  intros Hseed Hsafe Hfar Hsz. rewrite <- js_or_cases in Hseed. subst seed.
  destruct (makeUniqueKeyFunction_total fuel m data Hsz) as (k & Hmk & Hloop).
  exists k. split; [exact Hmk|].
  destruct (while_findNode_first_free _ _ _ _ Hloop)
    as (Hle & Hfree & Hbelow & Hbound & _).
  split; [exact Hle|]. split.
  { intros j Hj1 Hj2. apply node_found_spec. by apply Hbelow. }
  split; [by apply node_free_spec|].
  split; [safe_lia|].
  intros Hnone H1 H2.
  assert (k = 2) as ->.
  { rewrite Hnone, js_or_unset in Hle, Hbelow.
    apply node_free_spec in H2.
    apply node_found_spec in H1.
    destruct (Z.eq_dec k 1) as [->|Hk1]; [contradiction|].
    destruct (Z.eq_dec k 2) as [->|Hk2]; [reflexivity|].
    exfalso. apply H2. apply Hbelow; lia. }
  split; [reflexivity|].
  unfold addNode. rewrite Hnone, Hmk. reflexivity.
Qed.

Lemma makeUniqueKeyFunction_linear_probe_witness :
  safe_integer 1 ∧
  safe_integer (1 + Z.of_nat (size (nodeKeys model_1))) ∧
  (size (nodeKeys model_1) < 2)%nat ∧
  ∃ k, makeUniqueKeyFunction 2 model_1 (datum None "C")
       = Some (k, set_key (datum None "C") k) ∧ k = 2.
Proof.
  assert (Hsafe : safe_integer 1) by (vm_compute; split; discriminate).
  assert (Hfar : safe_integer (1 + Z.of_nat (size (nodeKeys model_1)))).
  { rewrite size_nodeKeys_model_1. vm_compute. split; discriminate. }
  assert (Hsz : (size (nodeKeys model_1) < 2)%nat).
  { rewrite size_nodeKeys_model_1. lia. }
  split; [exact Hsafe|]. split; [exact Hfar|]. split; [exact Hsz|].
  destruct (makeUniqueKeyFunction_linear_probe 2 model_1 (datum None "C") 1
              eq_refl Hsafe Hfar Hsz)
    as (k & Hmk & _ & _ & _ & _ & Hscenario).
  exists k. split; [exact Hmk|].
  apply Hscenario; [reflexivity | by eexists | reflexivity].
Defined.

Example makeUniqueKeyFunction_explicit_request :
  makeUniqueKeyFunction 3 model_12 (datum (Some 2) "B'") = Some (3, datum (Some 3) "B'") ∧
  makeUniqueKeyFunction 3 model_12 (datum (Some 5) "E") = Some (5, datum (Some 5) "E").
Proof. split; vm_compute; reflexivity. Qed.

(** ** Sequences of creations *)

Lemma keys_of_snoc l d :
  keys_of (l ++ [d]) = keys_of l ++ match key d with Some k => [k] | None => [] end.
Proof.
  unfold keys_of. rewrite omap_app. simpl. by destruct (key d).
Qed.

Lemma size_add_fresh (X : gset Z) (k : Z) :
  k ∉ X → size (X ∪ {[k]}) = S (size X).
Proof.
  intros Hk. rewrite size_union.
  - rewrite size_singleton. lia.
  - apply disjoint_singleton_r, Hk.
Qed.

Lemma create_all_cons fuel m c cs :
  create_all fuel m (c :: cs)
  = match create fuel m c with
    | Some (assigned, m') =>
        match create_all fuel m' cs with
        | Some (ks, m'') =>
            Some (match assigned with Some k => k :: ks | None => ks end, m'')
        | None => None
        end
    | None => None
    end.
Proof. reflexivity. Qed.

Lemma create_NewNode fuel m d :
  create fuel m (NewNode d)
  = match addNode fuel m d with
    | Some (k, m') => Some (Some k, m')
    | None => None
    end.
Proof. reflexivity. Qed.

Lemma create_NewLink fuel m d : create fuel m (NewLink d) = addLink fuel m d.
Proof. reflexivity. Qed.

(** Adding a keyless node: the allocator runs from the seed [1]. *)
Lemma addNode_keyless fuel m d :
  key d = None → (size (nodeKeys m) < fuel)%nat →
  ∃ k, let m' := {| nodeDataArray := nodeDataArray m ++ [set_key d k];
                    linkDataArray := linkDataArray m |} in
    addNode fuel m d = Some (k, m') ∧ 0 < k ∧ (k ∉ nodeKeys m) ∧
    nodeKeys m' = nodeKeys m ∪ {[k]} ∧ linkKeys m' = linkKeys m.
Proof.
  intros Hnone Hsz.
  destruct (makeUniqueKeyFunction_total fuel m d Hsz) as (k & Hmk & Hloop).
  destruct (while_findNode_first_free _ _ _ _ Hloop) as (Hle & Hfree & _).
  rewrite Hnone, js_or_unset in Hle.
  exists k. simpl. split; [|split; [lia|split; [exact Hfree|split]]].
  - unfold addNode. rewrite Hnone, Hmk. reflexivity.
  - unfold nodeKeys. simpl. rewrite keys_of_snoc. simpl.
    rewrite list_to_set_app_L. simpl. by rewrite union_empty_r_L.
  - reflexivity.
Qed.

(** Adding a keyless link: the allocator runs from the seed [-1]. *)
Lemma addLink_rejected fuel m d :
  link_accepted m d = false → addLink fuel m d = Some (None, m).
Proof. intros Hrej. unfold addLink. by rewrite Hrej. Qed.

Lemma addLink_keyless fuel m d :
  link_accepted m d = true →
  key d = None → (size (linkKeys m) < fuel)%nat →
  ∃ k, let m' := {| nodeDataArray := nodeDataArray m;
                    linkDataArray := linkDataArray m ++ [set_key d k] |} in
    addLink fuel m d = Some (Some k, m') ∧ k < 0 ∧ (k ∉ linkKeys m) ∧
    linkKeys m' = linkKeys m ∪ {[k]} ∧ nodeKeys m' = nodeKeys m.
Proof.
  intros Hacc Hnone Hsz.
  destruct (makeUniqueLinkKeyFunction_total fuel m d Hsz) as (k & Hmk & Hloop).
  destruct (while_findLink_first_free _ _ _ _ Hloop) as (Hle & Hfree & _).
  rewrite Hnone, js_or_unset in Hle.
  exists k. simpl. split; [|split; [lia|split; [exact Hfree|split]]].
  - unfold addLink. rewrite Hacc, Hnone, Hmk. reflexivity.
  - unfold linkKeys. simpl. rewrite keys_of_snoc. simpl.
    rewrite list_to_set_app_L. simpl. by rewrite union_empty_r_L.
  - reflexivity.
Qed.

(** C2: for every sequence of node additions in which no key is requested,
    every addition succeeds and the keys the allocator assigns are pairwise
    distinct, strictly positive integers (none of them the key of a node that
    was already there); they are the keys the added nodes carry in the
    resulting model. *)
Theorem addNode_keys_distinct_positive fuel m ds :
  Forall (λ d, key d = None) ds →
  (size (nodeKeys m) + length ds < fuel)%nat →
  ∃ ks m',
    create_all fuel m (NewNode <$> ds) = Some (ks, m') ∧
    length ks = length ds ∧
    NoDup ks ∧
    Forall (λ k, 0 < k) ks ∧
    Forall (λ k, k ∉ nodeKeys m) ks ∧
    keys_of (nodeDataArray m') = keys_of (nodeDataArray m) ++ ks.
Proof.
  intros Hkeyless. revert m.
  induction Hkeyless as [|d ds Hd _ IH]; intros m Hsz.
  - exists [], m. rewrite app_nil_r. repeat split; constructor.
  - rewrite length_cons in Hsz.
    destruct (addNode_keyless fuel m d Hd ltac:(lia))
      as (k & Hadd & Hpos & Hfresh & Hkeys & _).
    simpl in Hadd, Hkeys. rewrite fmap_cons, create_all_cons, create_NewNode, Hadd.
    set (m1 := {| nodeDataArray := nodeDataArray m ++ [set_key d k];
                  linkDataArray := linkDataArray m |}) in *.
    destruct (IH m1) as (ks & m' & Hrun & Hlen & Hnd & Hposs & Hfreshs & Harr).
    { rewrite Hkeys, size_add_fresh by exact Hfresh. lia. }
    exists (k :: ks), m'. rewrite Hrun.
    assert (Hnotin : ∀ x, x ∈ ks → x ∉ nodeKeys m1).
    { apply Forall_forall, Hfreshs. }
    split; [reflexivity|]. split; [simpl; lia|]. split.
    { constructor; [|exact Hnd]. intros Hin.
      apply (Hnotin k Hin). rewrite Hkeys.
      by apply elem_of_union_r, elem_of_singleton. }
    split; [constructor; [exact Hpos | exact Hposs]|]. split.
    { constructor; [exact Hfresh|]. apply Forall_forall. intros x Hx Hxm.
      apply (Hnotin x Hx). rewrite Hkeys. by apply elem_of_union_l. }
    rewrite Harr. unfold m1. simpl. rewrite keys_of_snoc. simpl.
    by rewrite <- app_assoc.
Qed.

Lemma addNode_keys_distinct_positive_witness :
  Forall (λ d, key d = None) [datum None "C"; datum None "D"] ∧
  (size (nodeKeys model_1) + length [datum None "C"; datum None "D"] < 4)%nat ∧
  ∃ ks m',
    create_all 4 model_1 (NewNode <$> [datum None "C"; datum None "D"])
    = Some (ks, m') ∧ NoDup ks ∧ Forall (λ k, 0 < k) ks.
Proof.
  assert (Hkeyless : Forall (λ d, key d = None) [datum None "C"; datum None "D"]).
  { repeat constructor. }
  assert (Hsz : (size (nodeKeys model_1)
                 + length [datum None "C"; datum None "D"] < 4)%nat).
  { rewrite size_nodeKeys_model_1. simpl. lia. }
  split; [exact Hkeyless|]. split; [exact Hsz|].
  destruct (addNode_keys_distinct_positive 4 model_1 _ Hkeyless Hsz)
    as (ks & m' & Hrun & _ & Hnd & Hpos & _).
  exists ks, m'. split; [exact Hrun|]. split; [exact Hnd | exact Hpos].
Defined.

Example addNode_two_on_model_1 :
  fst <$> create_all 4 model_1 (NewNode <$> [datum None "C"; datum None "D"])
  = Some [2; 3].
Proof. vm_compute. reflexivity. Qed.

(** C3, as the specification words it: the link allocator seeds at
    [requestedKey ?? -1].  This fails for a requested key of [0] on the empty
    model: [0 ?? -1] is [0], which is free, but the source seeds with
    [data.key || -1] and returns [-1]. *)
Lemma link_seed_is_not_nullish :
  spec_allocateLinkKey 1 empty_model (Some 0) = Some 0 ∧
  makeUniqueLinkKeyFunction 1 empty_model (datum (Some 0) "L")
    = Some (-1, datum (Some (-1)) "L") ∧
  ¬ (∀ fuel m data,
       fst <$> makeUniqueLinkKeyFunction fuel m data
       = spec_allocateLinkKey fuel m (key data)).
Proof.
  split; [reflexivity|]. split; [reflexivity|].
  intros H. specialize (H 1%nat empty_model (datum (Some 0) "L")).
  vm_compute in H. discriminate H.
Qed.

Lemma link_accepted_nodes m1 m2 d :
  nodeDataArray m1 = nodeDataArray m2 → link_accepted m1 d = link_accepted m2 d.
Proof.
  intros Heq. unfold link_accepted, names_node, findNodeDataForKey.
  by rewrite Heq.
Qed.

(** Keyless link additions, one after the other: the links whose endpoints
    name nodes get fresh negative keys, the others are rejected and get
    none. *)
Lemma addLinks_keyless fuel m0 ds :
  Forall (λ d, key d = None) ds →
  ∀ m, nodeDataArray m = nodeDataArray m0 →
  (size (linkKeys m) + length ds < fuel)%nat →
  ∃ ks m',
    create_all fuel m (NewLink <$> ds) = Some (ks, m') ∧
    length ks = length (filter (λ d, link_accepted m0 d = true) ds) ∧
    NoDup ks ∧
    Forall (λ k, k < 0) ks ∧
    Forall (λ k, k ∉ linkKeys m) ks ∧
    keys_of (linkDataArray m') = keys_of (linkDataArray m) ++ ks ∧
    nodeDataArray m' = nodeDataArray m.
Proof.
  induction 1 as [|d ds Hd _ IH]; intros m Hnodes Hsz.
  - exists [], m. rewrite app_nil_r. repeat split; constructor.
  - rewrite length_cons in Hsz.
    rewrite fmap_cons, create_all_cons, create_NewLink.
    destruct (link_accepted m0 d) eqn:Hacc.
    + rewrite <- (link_accepted_nodes m m0 d Hnodes) in Hacc.
      destruct (addLink_keyless fuel m d Hacc Hd ltac:(lia))
        as (k & Hadd & Hneg & Hfresh & Hkeys & _).
      simpl in Hadd, Hkeys. rewrite Hadd.
      set (m1 := {| nodeDataArray := nodeDataArray m;
                    linkDataArray := linkDataArray m ++ [set_key d k] |}) in *.
      destruct (IH m1) as (ks & m' & Hrun & Hlen & Hnd & Hnegs & Hfreshs & Harr & Hn').
      { exact Hnodes. }
      { rewrite Hkeys, size_add_fresh by exact Hfresh. lia. }
      exists (k :: ks), m'. rewrite Hrun.
      assert (Hnotin : ∀ x, x ∈ ks → x ∉ linkKeys m1).
      { apply Forall_forall, Hfreshs. }
      split; [reflexivity|]. split.
      { rewrite filter_cons_True.
        - simpl. by rewrite Hlen.
        - by rewrite <- (link_accepted_nodes m m0 d Hnodes). }
      split.
      { constructor; [|exact Hnd]. intros Hin.
        apply (Hnotin k Hin). rewrite Hkeys.
        by apply elem_of_union_r, elem_of_singleton. }
      split; [constructor; [exact Hneg | exact Hnegs]|]. split.
      { constructor; [exact Hfresh|]. apply Forall_forall. intros x Hx Hxm.
        apply (Hnotin x Hx). rewrite Hkeys. by apply elem_of_union_l. }
      split; [|exact Hn'].
      rewrite Harr. unfold m1. simpl. rewrite keys_of_snoc. simpl.
      by rewrite <- app_assoc.
    + rewrite addLink_rejected
        by (by rewrite (link_accepted_nodes m m0 d Hnodes)).
      destruct (IH m Hnodes ltac:(lia))
        as (ks & m' & Hrun & Hlen & Hnd & Hnegs & Hfreshs & Harr & Hn').
      exists ks, m'. rewrite Hrun.
      split; [reflexivity|]. split.
      { rewrite filter_cons_False; [exact Hlen|]. by rewrite Hacc. }
      repeat split; assumption.
Qed.

(** C3, amended: link key allocation is the mirror image of node
    allocation.  As long as the keys involved are safe integers (the seed,
    and the farthest key the probe can reach, are of magnitude at most
    [2^53 - 1]), it seeds at [data.key || -1] (the requested key when it is
    set and not [0], else [-1]) and decrements while the candidate is the key
    of an existing link, returning the first free value; so for every
    sequence of link additions with no explicit key, the links that are
    accepted (both endpoints name nodes; the others are rejected and get no
    key) are assigned pairwise distinct, strictly negative integers. *)
Theorem addLink_keys_distinct_negative fuel m ds :
  Forall (λ d, key d = None) ds →
  (size (linkKeys m) + length ds < fuel)%nat →
  (∀ data seed,
     seed = match key data with
            | Some k0 => if decide (k0 = 0) then -1 else k0
            | None => -1
            end →
     safe_integer seed →
     safe_integer (seed - Z.of_nat (size (linkKeys m))) →
     ∃ k,
       makeUniqueLinkKeyFunction fuel m data = Some (k, set_key data k) ∧
       k ≤ seed ∧
       (∀ j, k < j → j ≤ seed → is_Some (findLinkDataForKey m j)) ∧
       findLinkDataForKey m k = None ∧
       safe_integer k) ∧
  ∃ ks m',
    create_all fuel m (NewLink <$> ds) = Some (ks, m') ∧
    length ks = length (filter (λ d, link_accepted m d = true) ds) ∧
    NoDup ks ∧
    Forall (λ k, k < 0) ks ∧
    Forall (λ k, k ∉ linkKeys m) ks ∧
    keys_of (linkDataArray m') = keys_of (linkDataArray m) ++ ks ∧
    nodeDataArray m' = nodeDataArray m.
Proof.
  intros Hkeyless Hsz. split.
  { intros data seed Hseed Hsafe Hfar. rewrite <- js_or_cases in Hseed. subst seed.
    destruct (makeUniqueLinkKeyFunction_total fuel m data ltac:(lia))
      as (k & Hmk & Hloop).
    destruct (while_findLink_first_free _ _ _ _ Hloop)
      as (Hle & Hfree & Hbelow & Hbound & _).
    exists k. split; [exact Hmk|]. split; [exact Hle|]. split.
    - intros j Hj1 Hj2. apply link_found_spec. by apply Hbelow.
    - split; [by apply link_free_spec | safe_lia]. }
  by apply (addLinks_keyless fuel m ds Hkeyless m).
Qed.

Lemma addLink_keys_distinct_negative_witness :
  Forall (λ d, key d = None)
    [link_datum None 1 1; link_datum None 99 1; link_datum None 1 1] ∧
  (size (linkKeys model_1)
   + length [link_datum None 1 1; link_datum None 99 1; link_datum None 1 1] < 4)%nat ∧
  ∃ ks m',
    create_all 4 model_1
      (NewLink <$> [link_datum None 1 1; link_datum None 99 1; link_datum None 1 1])
    = Some (ks, m') ∧ length ks = 2%nat ∧ NoDup ks ∧ Forall (λ k, k < 0) ks.
Proof.
  assert (Hkeyless : Forall (λ d, key d = None)
            [link_datum None 1 1; link_datum None 99 1; link_datum None 1 1]).
  { repeat constructor. }
  assert (Hsz : (size (linkKeys model_1)
                 + length [link_datum None 1 1; link_datum None 99 1;
                           link_datum None 1 1] < 4)%nat).
  { rewrite linkKeys_model_1, size_empty. simpl. lia. }
  split; [exact Hkeyless|]. split; [exact Hsz|].
  destruct (addLink_keys_distinct_negative 4 model_1 _ Hkeyless Hsz)
    as (_ & ks & m' & Hrun & Hlen & Hnd & Hneg & _).
  exists ks, m'. split; [exact Hrun|]. split; [exact Hlen|].
  split; [exact Hnd | exact Hneg].
Defined.

Example addLink_three_on_model_1 :
  fst <$> create_all 4 model_1
            (NewLink <$> [link_datum None 1 1; link_datum None 99 1; link_datum None 1 1])
  = Some [-1; -2] ∧
  addLink 4 model_1 (link_datum None 99 1) = Some (None, model_1).
Proof. split; vm_compute; reflexivity. Qed.

(** ** Freedom, write-back and termination of the allocators *)

(** C4, as stated: for every model and every requested key the allocator
    returns a free key.  On JavaScript numbers this fails at the edge of the
    safe integers: with a node of key [2^53] and a request for [2^53], [k++]
    leaves [k] at [2^53], the loop never ends and the allocator never
    returns; likewise for a link of key [-2^53]. *)
Lemma allocators_never_return_past_safe_integers :
  is_Some (findNodeDataForKey model_edge (2 ^ 53)) ∧
  (∀ fuel, Number.makeUniqueKeyFunction fuel model_edge (datum (Some (2 ^ 53)) "X")
           = None) ∧
  is_Some (findLinkDataForKey model_edge (- 2 ^ 53)) ∧
  (∀ fuel, Number.makeUniqueLinkKeyFunction fuel model_edge
             (datum (Some (- 2 ^ 53)) "Y")
           = None) ∧
  ¬ (∀ m data, ∃ fuel k data',
       Number.makeUniqueKeyFunction fuel m data = Some (k, data')).
Proof.
  assert (Hn : is_Some (findNodeDataForKey model_edge (2 ^ 53))) by (by eexists).
  assert (Hl : is_Some (findLinkDataForKey model_edge (- 2 ^ 53))) by (by eexists).
  assert (Hnode : ∀ fuel,
            Number.makeUniqueKeyFunction fuel model_edge (datum (Some (2 ^ 53)) "X")
            = None).
  { intros fuel. unfold Number.makeUniqueKeyFunction.
    change (js_or (key (datum (Some (2 ^ 53)) "X")) 1) with (2 ^ 53).
    by rewrite (number_while_findNode_stuck model_edge fuel Hn). }
  split; [exact Hn|]. split; [exact Hnode|]. split; [exact Hl|]. split.
  - intros fuel. unfold Number.makeUniqueLinkKeyFunction.
    change (js_or (key (datum (Some (- 2 ^ 53)) "Y")) (-1)) with (- 2 ^ 53).
    by rewrite (number_while_findLink_stuck model_edge fuel Hl).
  - intros Hall.
    destruct (Hall model_edge (datum (Some (2 ^ 53)) "X")) as (fuel & k & d' & Hret).
    rewrite Hnode in Hret. discriminate Hret.
Qed.

(** C4, amended: for every model and every requested key, also one that is
    the key of an existing entity, as long as the keys involved are safe
    integers (the seed, and the farthest key the probe can reach, are of
    magnitude at most [2^53 - 1]), each allocator returns (it does not fail
    or run forever) and the key it returns is not the key of any existing
    entity of its kind; a colliding request is resolved to a different key.
    This holds of the allocators on numbers, which here return what the
    allocators on integers return. *)
Theorem allocators_return_free_key fuel m data seedn seedl :
  seedn = match key data with
          | Some k0 => if decide (k0 = 0) then 1 else k0
          | None => 1
          end →
  seedl = match key data with
          | Some k0 => if decide (k0 = 0) then -1 else k0
          | None => -1
          end →
  (size (nodeKeys m) < fuel)%nat →
  (size (linkKeys m) < fuel)%nat →
  (safe_integer seedn →
   safe_integer (seedn + Z.of_nat (size (nodeKeys m))) →
   ∃ k, Number.makeUniqueKeyFunction fuel m data = Some (k, set_key data k) ∧
        makeUniqueKeyFunction fuel m data = Some (k, set_key data k) ∧
        findNodeDataForKey m k = None ∧ (k ∉ nodeKeys m) ∧
        safe_integer k ∧
        (is_Some (findNodeDataForKey m seedn) → k ≠ seedn)) ∧
  (safe_integer seedl →
   safe_integer (seedl - Z.of_nat (size (linkKeys m))) →
   ∃ k, Number.makeUniqueLinkKeyFunction fuel m data = Some (k, set_key data k) ∧
        makeUniqueLinkKeyFunction fuel m data = Some (k, set_key data k) ∧
        findLinkDataForKey m k = None ∧ (k ∉ linkKeys m) ∧
        safe_integer k ∧
        (is_Some (findLinkDataForKey m seedl) → k ≠ seedl)).
Proof.
  intros Hseedn Hseedl Hn Hl.
  rewrite <- js_or_cases in Hseedn, Hseedl. subst seedn seedl. split.
  - intros Hsafe Hfar.
    destruct (makeUniqueKeyFunction_total fuel m data Hn) as (k & Hmk & Hloop).
    destruct (while_findNode_first_free _ _ _ _ Hloop)
      as (Hle & Hfree & _ & Hbound & _).
    exists k. rewrite (number_makeUniqueKeyFunction_exact _ _ _ Hn Hsafe Hfar).
    split; [exact Hmk|]. split; [exact Hmk|].
    split; [by apply node_free_spec|]. split; [exact Hfree|].
    split; [safe_lia|].
    intros Htaken Heq. rewrite <- Heq in Htaken.
    apply node_found_spec in Htaken. contradiction.
  - intros Hsafe Hfar.
    destruct (makeUniqueLinkKeyFunction_total fuel m data Hl) as (k & Hmk & Hloop).
    destruct (while_findLink_first_free _ _ _ _ Hloop)
      as (Hle & Hfree & _ & Hbound & _).
    exists k. rewrite (number_makeUniqueLinkKeyFunction_exact _ _ _ Hl Hsafe Hfar).
    split; [exact Hmk|]. split; [exact Hmk|].
    split; [by apply link_free_spec|]. split; [exact Hfree|].
    split; [safe_lia|].
    intros Htaken Heq. rewrite <- Heq in Htaken.
    apply link_found_spec in Htaken. contradiction.
Qed.

Lemma allocators_return_free_key_witness :
  (size (nodeKeys model_12) < 3)%nat ∧
  (size (linkKeys model_12) < 3)%nat ∧
  safe_integer 1 ∧
  safe_integer (1 + Z.of_nat (size (nodeKeys model_12))) ∧
  ∃ k, Number.makeUniqueKeyFunction 3 model_12 (datum (Some 1) "B")
       = Some (k, set_key (datum (Some 1) "B") k) ∧
       findNodeDataForKey model_12 k = None ∧ k ≠ 1.
Proof.
  assert (Hn : (size (nodeKeys model_12) < 3)%nat).
  { rewrite size_nodeKeys_model_12. lia. }
  assert (Hl : (size (linkKeys model_12) < 3)%nat).
  { rewrite size_linkKeys_model_12. lia. }
  assert (Hsafe : safe_integer 1) by (vm_compute; split; discriminate).
  assert (Hfar : safe_integer (1 + Z.of_nat (size (nodeKeys model_12)))).
  { rewrite size_nodeKeys_model_12. vm_compute. split; discriminate. }
  split; [exact Hn|]. split; [exact Hl|]. split; [exact Hsafe|]. split; [exact Hfar|].
  destruct (allocators_return_free_key 3 model_12 (datum (Some 1) "B") 1 1
              eq_refl eq_refl Hn Hl)
    as [Hnode _].
  destruct (Hnode Hsafe Hfar) as (k & Hmk & _ & Hfree & _ & _ & Hne).
  exists k. split; [exact Hmk|]. split; [exact Hfree|].
  apply Hne. by eexists.
Defined.

Example colliding_request_model_12 :
  makeUniqueKeyFunction 3 model_12 (datum (Some 1) "B") = Some (3, datum (Some 3) "B") ∧
  makeUniqueLinkKeyFunction 3 model_12 (datum (Some (-1)) "L")
  = Some (-2, datum (Some (-2)) "L").
Proof. split; vm_compute; reflexivity. Qed.

(** C6: after any node or link key allocation, that is whenever an
    allocator returns, the datum's key field holds the allocated key: the
    value returned equals the key field of the datum after the call, whose
    other properties are unchanged.  And the allocators do return: always
    for a datum without a key, and for a requested key as long as the keys
    involved are safe integers. *)
Theorem allocated_key_written_back fuel m data :
  (∀ k data', makeUniqueKeyFunction fuel m data = Some (k, data') →
              key data' = Some k ∧ props data' = props data) ∧
  (∀ k data', makeUniqueLinkKeyFunction fuel m data = Some (k, data') →
              key data' = Some k ∧ props data' = props data) ∧
  ((size (nodeKeys m) < fuel)%nat →
   safe_integer (js_or (key data) 1) →
   safe_integer (js_or (key data) 1 + Z.of_nat (size (nodeKeys m))) →
   ∃ k data', makeUniqueKeyFunction fuel m data = Some (k, data')) ∧
  ((size (linkKeys m) < fuel)%nat →
   safe_integer (js_or (key data) (-1)) →
   safe_integer (js_or (key data) (-1) - Z.of_nat (size (linkKeys m))) →
   ∃ k data', makeUniqueLinkKeyFunction fuel m data = Some (k, data')).
Proof.
  split; [|split; [|split]].
  - intros k data' H. apply makeUniqueKeyFunction_inv in H as [_ ->].
    split; reflexivity.
  - intros k data' H. apply makeUniqueLinkKeyFunction_inv in H as [_ ->].
    split; reflexivity.
  - intros Hn _ _.
    destruct (makeUniqueKeyFunction_total fuel m data Hn) as (k & Hmk & _).
    by exists k, (set_key data k).
  - intros Hl _ _.
    destruct (makeUniqueLinkKeyFunction_total fuel m data Hl) as (k & Hmk & _).
    by exists k, (set_key data k).
Qed.

Lemma allocated_key_written_back_witness :
  makeUniqueKeyFunction 3 model_12 (datum None "C") = Some (3, datum (Some 3) "C") ∧
  key (datum (Some 3) "C") = Some 3 ∧
  props (datum (Some 3) "C") = props (datum None "C").
Proof.
  assert (Hmk : makeUniqueKeyFunction 3 model_12 (datum None "C")
                = Some (3, datum (Some 3) "C")) by (vm_compute; reflexivity).
  split; [exact Hmk|].
  exact (proj1 (allocated_key_written_back 3 model_12 (datum None "C")) _ _ Hmk).
Defined.

(** Whatever the fuel, a result of an allocator carries its key. *)
Lemma makeUniqueKeyFunction_key fuel m data k data' :
  makeUniqueKeyFunction fuel m data = Some (k, data') → key data' = Some k.
Proof. intros H. apply makeUniqueKeyFunction_inv in H as [_ ->]. reflexivity. Qed.

Lemma makeUniqueLinkKeyFunction_key fuel m data k data' :
  makeUniqueLinkKeyFunction fuel m data = Some (k, data') → key data' = Some k.
Proof. intros H. apply makeUniqueLinkKeyFunction_inv in H as [_ ->]. reflexivity. Qed.

(** C8: a requested key of [0] is treated as unset.  Node allocation with
    requested key [0] seeds at [1], returns a positive key, and returns what
    it returns for the same datum without a key; link allocation with
    requested key [0] seeds at [-1] and returns a negative key, likewise.
    The seed is the falsy-or of the source; a null-coalescing seed would
    be [0]. *)
Theorem zero_key_treated_as_unset fuel m data :
  key data = Some 0 →
  (size (nodeKeys m) < fuel)%nat →
  (size (linkKeys m) < fuel)%nat →
  (js_or (key data) 1 = 1 ∧ js_nullish (key data) 1 = 0 ∧
   ∃ k, makeUniqueKeyFunction fuel m data = Some (k, set_key data k) ∧
        while_findNode fuel m 1 = Some k ∧ 0 < k ∧
        makeUniqueKeyFunction fuel m {| key := None; props := props data |}
        = Some (k, set_key data k)) ∧
  (js_or (key data) (-1) = -1 ∧ js_nullish (key data) (-1) = 0 ∧
   ∃ k, makeUniqueLinkKeyFunction fuel m data = Some (k, set_key data k) ∧
        while_findLink fuel m (-1) = Some k ∧ k < 0 ∧
        makeUniqueLinkKeyFunction fuel m {| key := None; props := props data |}
        = Some (k, set_key data k)).
Proof.
  intros Hzero Hn Hl. split.
  - split; [by rewrite Hzero|]. split; [by rewrite Hzero|].
    destruct (makeUniqueKeyFunction_total fuel m data Hn) as (k & Hmk & Hloop).
    rewrite Hzero, js_or_zero in Hloop.
    destruct (while_findNode_first_free _ _ _ _ Hloop) as (Hle & _).
    exists k. split; [exact Hmk|]. split; [exact Hloop|]. split; [lia|].
    unfold makeUniqueKeyFunction. simpl. rewrite Hloop. reflexivity.
  - split; [by rewrite Hzero|]. split; [by rewrite Hzero|].
    destruct (makeUniqueLinkKeyFunction_total fuel m data Hl) as (k & Hmk & Hloop).
    rewrite Hzero, js_or_zero in Hloop.
    destruct (while_findLink_first_free _ _ _ _ Hloop) as (Hle & _).
    exists k. split; [exact Hmk|]. split; [exact Hloop|]. split; [lia|].
    unfold makeUniqueLinkKeyFunction. simpl. rewrite Hloop. reflexivity.
Qed.

Lemma zero_key_treated_as_unset_witness :
  key (datum (Some 0) "Z") = Some 0 ∧
  (size (nodeKeys model_12) < 3)%nat ∧
  (size (linkKeys model_12) < 3)%nat ∧
  (∃ k, makeUniqueKeyFunction 3 model_12 (datum (Some 0) "Z")
        = Some (k, set_key (datum (Some 0) "Z") k) ∧ 0 < k) ∧
  (∃ k, makeUniqueLinkKeyFunction 3 model_12 (datum (Some 0) "Z")
        = Some (k, set_key (datum (Some 0) "Z") k) ∧ k < 0).
Proof.
  assert (Hn : (size (nodeKeys model_12) < 3)%nat).
  { rewrite size_nodeKeys_model_12. lia. }
  assert (Hl : (size (linkKeys model_12) < 3)%nat).
  { rewrite size_linkKeys_model_12. lia. }
  split; [reflexivity|]. split; [exact Hn|]. split; [exact Hl|].
  destruct (zero_key_treated_as_unset 3 model_12 (datum (Some 0) "Z")
              eq_refl Hn Hl)
    as [(_ & _ & k & Hmk & _ & Hpos & _) (_ & _ & k' & Hmk' & _ & Hneg & _)].
  split; [exists k | exists k']; split; assumption.
Defined.

Example zero_key_model_12 :
  makeUniqueKeyFunction 3 model_12 (datum (Some 0) "Z") = Some (3, datum (Some 3) "Z") ∧
  makeUniqueLinkKeyFunction 3 model_12 (datum (Some 0) "Z")
  = Some (-2, datum (Some (-2)) "Z").
Proof. split; vm_compute; reflexivity. Qed.

(** C9, as stated: both probe loops terminate on every model.  On
    JavaScript numbers they do not when a probe reaches a taken key at the
    edge of the safe integers: started at [2^53] with a node of that key, the
    upward loop never ends, and started at [-2^53] with a link of that key,
    the downward loop never ends, whatever the fuel. *)
Lemma probe_loops_never_end_past_safe_integers :
  size (nodeKeys model_edge) = 1%nat ∧
  size (linkKeys model_edge) = 1%nat ∧
  (∀ fuel, Number.while_findNode fuel model_edge (2 ^ 53) = None) ∧
  (∀ fuel, Number.while_findLink fuel model_edge (- 2 ^ 53) = None) ∧
  ¬ (∀ m k0, ∃ fuel r, Number.while_findNode fuel m k0 = Some r).
Proof.
  assert (Hnode : ∀ fuel, Number.while_findNode fuel model_edge (2 ^ 53) = None).
  { intros fuel. apply number_while_findNode_stuck. by eexists. }
  split; [vm_compute; reflexivity|]. split; [vm_compute; reflexivity|].
  split; [exact Hnode|]. split.
  - intros fuel. apply number_while_findLink_stuck. by eexists.
  - intros Hall. destruct (Hall model_edge (2 ^ 53)) as (fuel & r & Hr).
    rewrite Hnode in Hr. discriminate Hr.
Qed.

(** C9, amended: both probe loops terminate on every model, as long as the
    keys involved are safe integers (the start, and the farthest key the
    probe can reach, are of magnitude at most [2^53 - 1]).  With [n] keys of
    the kind in use, [n + 1] evaluations of the loop condition are enough;
    the loop reaches a free key, and its body runs at most [n] times: the
    result is at most [n] above (nodes) or below (links) the start.  This
    holds of the loops on numbers, which here return what the loops on
    integers return. *)
Theorem probe_loops_terminate fuel m k0 :
  safe_integer k0 →
  (size (nodeKeys m) < fuel)%nat →
  (size (linkKeys m) < fuel)%nat →
  (safe_integer (k0 + Z.of_nat (size (nodeKeys m))) →
   ∃ r, Number.while_findNode fuel m k0 = Some r ∧
        Number.while_findNode (S (size (nodeKeys m))) m k0 = Some r ∧
        while_findNode fuel m k0 = Some r ∧
        findNodeDataForKey m r = None ∧
        (∀ j, k0 ≤ j → j < r → is_Some (findNodeDataForKey m j)) ∧
        0 ≤ r - k0 ∧ r - k0 ≤ Z.of_nat (size (nodeKeys m))) ∧
  (safe_integer (k0 - Z.of_nat (size (linkKeys m))) →
   ∃ r, Number.while_findLink fuel m k0 = Some r ∧
        Number.while_findLink (S (size (linkKeys m))) m k0 = Some r ∧
        while_findLink fuel m k0 = Some r ∧
        findLinkDataForKey m r = None ∧
        (∀ j, r < j → j ≤ k0 → is_Some (findLinkDataForKey m j)) ∧
        0 ≤ k0 - r ∧ k0 - r ≤ Z.of_nat (size (linkKeys m))).
Proof.
  intros Hsafe Hn Hl. split; intros Hfar.
  - destruct (while_findNode_total fuel m k0 Hn) as [r Hr].
    destruct (while_findNode_total (S (size (nodeKeys m))) m k0 ltac:(lia))
      as [r' Hr'].
    assert (r' = r) as -> by (eapply while_findNode_fuel; eassumption).
    destruct (while_findNode_first_free _ _ _ _ Hr)
      as (Hle & Hfree & Hbelow & Hbound & _).
    exists r.
    split; [apply number_while_findNode_exact; [exact Hr | safe_lia | safe_lia]|].
    split; [apply number_while_findNode_exact; [exact Hr' | safe_lia | safe_lia]|].
    split; [exact Hr|]. split; [by apply node_free_spec|]. split.
    + intros j Hj1 Hj2. apply node_found_spec. by apply Hbelow.
    + split; lia.
  - destruct (while_findLink_total fuel m k0 Hl) as [r Hr].
    destruct (while_findLink_total (S (size (linkKeys m))) m k0 ltac:(lia))
      as [r' Hr'].
    assert (r' = r) as -> by (eapply while_findLink_fuel; eassumption).
    destruct (while_findLink_first_free _ _ _ _ Hr)
      as (Hle & Hfree & Hbelow & Hbound & _).
    exists r.
    split; [apply number_while_findLink_exact; [exact Hr | safe_lia | safe_lia]|].
    split; [apply number_while_findLink_exact; [exact Hr' | safe_lia | safe_lia]|].
    split; [exact Hr|]. split; [by apply link_free_spec|]. split.
    + intros j Hj1 Hj2. apply link_found_spec. by apply Hbelow.
    + split; lia.
Qed.

Lemma probe_loops_terminate_witness :
  safe_integer 1 ∧
  (size (nodeKeys model_12) < 5)%nat ∧
  (size (linkKeys model_12) < 5)%nat ∧
  safe_integer (1 + Z.of_nat (size (nodeKeys model_12))) ∧
  ∃ r, Number.while_findNode 5 model_12 1 = Some r ∧
       findNodeDataForKey model_12 r = None ∧ r - 1 ≤ 2.
Proof.
  assert (Hsafe : safe_integer 1) by (vm_compute; split; discriminate).
  assert (Hn : (size (nodeKeys model_12) < 5)%nat).
  { rewrite size_nodeKeys_model_12. lia. }
  assert (Hl : (size (linkKeys model_12) < 5)%nat).
  { rewrite size_linkKeys_model_12. lia. }
  assert (Hfar : safe_integer (1 + Z.of_nat (size (nodeKeys model_12)))).
  { rewrite size_nodeKeys_model_12. vm_compute. split; discriminate. }
  split; [exact Hsafe|]. split; [exact Hn|]. split; [exact Hl|]. split; [exact Hfar|].
  destruct (proj1 (probe_loops_terminate 5 model_12 1 Hsafe Hn Hl) Hfar)
    as (r & Hr & _ & _ & Hfree & _ & _ & Hb).
  rewrite size_nodeKeys_model_12 in Hb.
  exists r. split; [exact Hr|]. split; [exact Hfree | exact Hb].
Defined.

(** ** Determinism *)

Lemma makeUniqueKeyFunction_fuel f1 f2 m data r1 r2 :
  makeUniqueKeyFunction f1 m data = Some r1 →
  makeUniqueKeyFunction f2 m data = Some r2 → r1 = r2.
Proof.
  destruct r1 as [k1 d1], r2 as [k2 d2]. intros H1 H2.
  apply makeUniqueKeyFunction_inv in H1 as [H1 ->].
  apply makeUniqueKeyFunction_inv in H2 as [H2 ->].
  by rewrite (while_findNode_fuel _ _ _ _ _ _ H1 H2).
Qed.

Lemma makeUniqueLinkKeyFunction_fuel f1 f2 m data r1 r2 :
  makeUniqueLinkKeyFunction f1 m data = Some r1 →
  makeUniqueLinkKeyFunction f2 m data = Some r2 → r1 = r2.
Proof.
  destruct r1 as [k1 d1], r2 as [k2 d2]. intros H1 H2.
  apply makeUniqueLinkKeyFunction_inv in H1 as [H1 ->].
  apply makeUniqueLinkKeyFunction_inv in H2 as [H2 ->].
  by rewrite (while_findLink_fuel _ _ _ _ _ _ H1 H2).
Qed.

Lemma probe_ext occ1 occ2 dir fuel k :
  (∀ j, occ1 j = occ2 j) → probe occ1 dir fuel k = probe occ2 dir fuel k.
Proof.
  intros Hext. revert k. induction fuel as [|fuel IH]; intros k; simpl.
  - reflexivity.
  - rewrite Hext. destruct (occ2 k); [apply IH | reflexivity].
Qed.

Lemma node_taken_ext m1 m2 :
  nodeKeys m1 = nodeKeys m2 → ∀ j, node_taken m1 j = node_taken m2 j.
Proof.
  intros Heq j. apply Bool.eq_iff_eq_true.
  by rewrite !node_taken_spec, Heq.
Qed.

Lemma link_taken_ext m1 m2 :
  linkKeys m1 = linkKeys m2 → ∀ j, link_taken m1 j = link_taken m2 j.
Proof.
  intros Heq j. apply Bool.eq_iff_eq_true.
  by rewrite !link_taken_spec, Heq.
Qed.

Lemma size_add_le (X : gset Z) (k : Z) : (size (X ∪ {[k]}) ≤ S (size X))%nat.
Proof.
  destruct (decide (k ∈ X)) as [Hin|Hout].
  - replace (X ∪ {[k]}) with X; [lia|].
    symmetry. rewrite (union_comm_L X {[k]}).
    apply subseteq_union_1_L. by apply singleton_subseteq_l.
  - rewrite size_add_fresh by exact Hout. lia.
Qed.

Lemma nodeKeys_snoc m d k :
  key d = Some k →
  nodeKeys {| nodeDataArray := nodeDataArray m ++ [d];
              linkDataArray := linkDataArray m |} = nodeKeys m ∪ {[k]}.
Proof.
  intros Hk. unfold nodeKeys. simpl. rewrite keys_of_snoc, Hk.
  rewrite list_to_set_app_L. simpl. by rewrite union_empty_r_L.
Qed.

Lemma linkKeys_snoc m d k :
  key d = Some k →
  linkKeys {| nodeDataArray := nodeDataArray m;
              linkDataArray := linkDataArray m ++ [d] |} = linkKeys m ∪ {[k]}.
Proof.
  intros Hk. unfold linkKeys. simpl. rewrite keys_of_snoc, Hk.
  rewrite list_to_set_app_L. simpl. by rewrite union_empty_r_L.
Qed.

Lemma makeUniqueKeyFunction_key_sets fuel m1 m2 data :
  nodeKeys m1 = nodeKeys m2 →
  makeUniqueKeyFunction fuel m1 data = makeUniqueKeyFunction fuel m2 data.
Proof.
  intros Heq. unfold makeUniqueKeyFunction. rewrite !while_findNode_probe.
  by rewrite (probe_ext _ _ _ _ _ (node_taken_ext _ _ Heq)).
Qed.

Lemma makeUniqueLinkKeyFunction_key_sets fuel m1 m2 data :
  linkKeys m1 = linkKeys m2 →
  makeUniqueLinkKeyFunction fuel m1 data = makeUniqueLinkKeyFunction fuel m2 data.
Proof.
  intros Heq. unfold makeUniqueLinkKeyFunction. rewrite !while_findLink_probe.
  by rewrite (probe_ext _ _ _ _ _ (link_taken_ext _ _ Heq)).
Qed.

(** Two allocations, on models with the same keys and with whatever fuel
    is enough, return the same. *)
Lemma makeUniqueKeyFunction_two_runs f1 f2 m1 m2 data :
  nodeKeys m1 = nodeKeys m2 →
  (size (nodeKeys m1) < f1)%nat → (size (nodeKeys m1) < f2)%nat →
  ∃ k, makeUniqueKeyFunction f1 m1 data = Some (k, set_key data k) ∧
       makeUniqueKeyFunction f2 m2 data = Some (k, set_key data k) ∧
       (k ∉ nodeKeys m1).
Proof.
  intros Heq H1 H2.
  destruct (makeUniqueKeyFunction_total f1 m1 data H1) as (k & Hmk & Hloop).
  destruct (makeUniqueKeyFunction_total f2 m1 data H2) as (k' & Hmk' & _).
  pose proof (makeUniqueKeyFunction_fuel _ _ _ _ _ _ Hmk Hmk') as Hsame.
  destruct (while_findNode_first_free _ _ _ _ Hloop) as (_ & Hfree & _).
  exists k. split; [exact Hmk|]. split; [|exact Hfree].
  rewrite <- (makeUniqueKeyFunction_key_sets f2 m1 m2 data Heq).
  by rewrite Hmk', <- Hsame.
Qed.

Lemma makeUniqueLinkKeyFunction_two_runs f1 f2 m1 m2 data :
  linkKeys m1 = linkKeys m2 →
  (size (linkKeys m1) < f1)%nat → (size (linkKeys m1) < f2)%nat →
  ∃ k, makeUniqueLinkKeyFunction f1 m1 data = Some (k, set_key data k) ∧
       makeUniqueLinkKeyFunction f2 m2 data = Some (k, set_key data k) ∧
       (k ∉ linkKeys m1).
Proof.
  intros Heq H1 H2.
  destruct (makeUniqueLinkKeyFunction_total f1 m1 data H1) as (k & Hmk & Hloop).
  destruct (makeUniqueLinkKeyFunction_total f2 m1 data H2) as (k' & Hmk' & _).
  pose proof (makeUniqueLinkKeyFunction_fuel _ _ _ _ _ _ Hmk Hmk') as Hsame.
  destruct (while_findLink_first_free _ _ _ _ Hloop) as (_ & Hfree & _).
  exists k. split; [exact Hmk|]. split; [|exact Hfree].
  rewrite <- (makeUniqueLinkKeyFunction_key_sets f2 m1 m2 data Heq).
  by rewrite Hmk', <- Hsame.
Qed.

Lemma find_node_key_sets m1 m2 k :
  nodeKeys m1 = nodeKeys m2 →
  match findNodeDataForKey m1 k, findNodeDataForKey m2 k with
  | Some _, Some _ | None, None => True
  | _, _ => False
  end.
Proof.
  intros Heq.
  destruct (findNodeDataForKey m1 k) eqn:H1, (findNodeDataForKey m2 k) eqn:H2;
    try exact I.
  - apply node_free_spec in H2. apply H2. rewrite <- Heq.
    apply node_found_spec. by eexists.
  - apply node_free_spec in H1. apply H1. rewrite Heq.
    apply node_found_spec. by eexists.
Qed.

Lemma find_link_key_sets m1 m2 k :
  linkKeys m1 = linkKeys m2 →
  match findLinkDataForKey m1 k, findLinkDataForKey m2 k with
  | Some _, Some _ | None, None => True
  | _, _ => False
  end.
Proof.
  intros Heq.
  destruct (findLinkDataForKey m1 k) eqn:H1, (findLinkDataForKey m2 k) eqn:H2;
    try exact I.
  - apply link_free_spec in H2. apply H2. rewrite <- Heq.
    apply link_found_spec. by eexists.
  - apply link_free_spec in H1. apply H1. rewrite Heq.
    apply link_found_spec. by eexists.
Qed.

Lemma link_accepted_key_sets m1 m2 d :
  nodeKeys m1 = nodeKeys m2 → link_accepted m1 d = link_accepted m2 d.
Proof.
  intros Heq. unfold link_accepted, names_node.
  assert (Hname : ∀ n,
            match findNodeDataForKey m1 n with Some _ => true | None => false end
            = match findNodeDataForKey m2 n with Some _ => true | None => false end).
  { intros n. pose proof (find_node_key_sets m1 m2 n Heq) as H.
    destruct (findNodeDataForKey m1 n), (findNodeDataForKey m2 n);
      first [reflexivity | contradiction]. }
  destruct (endpoint d "from") as [f|], (endpoint d "to") as [t|];
    rewrite ?Hname; reflexivity.
Qed.

(** One creation in two runs: on models with the same keys, with whatever
    fuel is enough, both runs assign the same key (or both reject), and
    the models after it again have the same keys. *)
Lemma create_two_runs f1 f2 m1 m2 c :
  nodeKeys m1 = nodeKeys m2 →
  linkKeys m1 = linkKeys m2 →
  (size (nodeKeys m1) < f1)%nat → (size (linkKeys m1) < f1)%nat →
  (size (nodeKeys m1) < f2)%nat → (size (linkKeys m1) < f2)%nat →
  ∃ assigned m1' m2',
    create f1 m1 c = Some (assigned, m1') ∧
    create f2 m2 c = Some (assigned, m2') ∧
    nodeKeys m1' = nodeKeys m2' ∧ linkKeys m1' = linkKeys m2' ∧
    (size (nodeKeys m1') ≤ S (size (nodeKeys m1)))%nat ∧
    (size (linkKeys m1') ≤ S (size (linkKeys m1)))%nat ∧
    (m1 = m2 → m1' = m2').
Proof.
  intros Hnk Hlk Hn1 Hl1 Hn2 Hl2.
  assert (Hnode : ∀ d k, key d = Some k →
            nodeKeys (with_node m1 d) = nodeKeys (with_node m2 d) ∧
            linkKeys (with_node m1 d) = linkKeys (with_node m2 d) ∧
            (size (nodeKeys (with_node m1 d)) ≤ S (size (nodeKeys m1)))%nat ∧
            (size (linkKeys (with_node m1 d)) ≤ S (size (linkKeys m1)))%nat ∧
            (m1 = m2 → with_node m1 d = with_node m2 d)).
  { intros d k Hk. unfold with_node.
    rewrite (nodeKeys_snoc m1 d k Hk), (nodeKeys_snoc m2 d k Hk), Hnk.
    split; [reflexivity|]. split; [exact Hlk|].
    split; [apply size_add_le|]. split; [unfold linkKeys; simpl; lia|].
    by intros ->. }
  assert (Hlink : ∀ d k, key d = Some k →
            nodeKeys (with_link m1 d) = nodeKeys (with_link m2 d) ∧
            linkKeys (with_link m1 d) = linkKeys (with_link m2 d) ∧
            (size (nodeKeys (with_link m1 d)) ≤ S (size (nodeKeys m1)))%nat ∧
            (size (linkKeys (with_link m1 d)) ≤ S (size (linkKeys m1)))%nat ∧
            (m1 = m2 → with_link m1 d = with_link m2 d)).
  { intros d k Hk. unfold with_link.
    rewrite (linkKeys_snoc m1 d k Hk), (linkKeys_snoc m2 d k Hk), Hlk.
    split; [exact Hnk|]. split; [reflexivity|].
    split; [unfold nodeKeys; simpl; lia|]. split; [apply size_add_le|].
    by intros ->. }
  destruct c as [d|d].
  - destruct (makeUniqueKeyFunction_two_runs f1 f2 m1 m2 d Hnk Hn1 Hn2)
      as (k' & Hmk1 & Hmk2 & _).
    rewrite !create_NewNode. unfold addNode. rewrite Hmk1, Hmk2.
    destruct (key d) as [k|] eqn:Hkey.
    + pose proof (find_node_key_sets m1 m2 k Hnk) as Hfind.
      destruct (findNodeDataForKey m1 k), (findNodeDataForKey m2 k);
        try contradiction.
      * exists (Some k'), (with_node m1 (set_key d k')), (with_node m2 (set_key d k')).
        split; [reflexivity|]. split; [reflexivity|]. by apply (Hnode _ k').
      * exists (Some k), (with_node m1 d), (with_node m2 d).
        split; [reflexivity|]. split; [reflexivity|]. by apply (Hnode _ k).
    + exists (Some k'), (with_node m1 (set_key d k')), (with_node m2 (set_key d k')).
      split; [reflexivity|]. split; [reflexivity|]. by apply (Hnode _ k').
  - destruct (makeUniqueLinkKeyFunction_two_runs f1 f2 m1 m2 d Hlk Hl1 Hl2)
      as (k' & Hmk1 & Hmk2 & _).
    rewrite !create_NewLink. unfold addLink.
    rewrite <- (link_accepted_key_sets m1 m2 d Hnk), Hmk1, Hmk2.
    destruct (link_accepted m1 d).
    + destruct (key d) as [k|] eqn:Hkey.
      * pose proof (find_link_key_sets m1 m2 k Hlk) as Hfind.
        destruct (findLinkDataForKey m1 k), (findLinkDataForKey m2 k);
          try contradiction.
        -- exists (Some k'), (with_link m1 (set_key d k')), (with_link m2 (set_key d k')).
           split; [reflexivity|]. split; [reflexivity|]. by apply (Hlink _ k').
        -- exists (Some k), (with_link m1 d), (with_link m2 d).
           split; [reflexivity|]. split; [reflexivity|]. by apply (Hlink _ k).
      * exists (Some k'), (with_link m1 (set_key d k')), (with_link m2 (set_key d k')).
        split; [reflexivity|]. split; [reflexivity|]. by apply (Hlink _ k').
    + exists None, m1, m2.
      split; [reflexivity|]. split; [reflexivity|].
      split; [exact Hnk|]. split; [exact Hlk|]. split; [lia|]. split; [lia|].
      by intros ->.
Qed.

(** C5: key assignment is deterministic.  Two runs that perform the same
    sequence of node and link creations from the same model state both
    complete and assign the same keys, in the same order, and end in the same
    model.  More is true: the keys assigned depend on the starting state only
    through its sets of node keys and of link keys, so two runs from states
    that have the same keys, whatever the order and the other properties of
    their data and whatever the fuel, assign the same keys and end in states
    that again have the same keys.  (The creations are such that the probes
    stay within the safe integers.) *)
Theorem key_assignment_deterministic f1 f2 m1 m2 cs :
  nodeKeys m1 = nodeKeys m2 →
  linkKeys m1 = linkKeys m2 →
  Forall (safe_creation (size (nodeKeys m1) + length cs)
                        (size (linkKeys m1) + length cs)) cs →
  (size (nodeKeys m1) + length cs < f1)%nat →
  (size (linkKeys m1) + length cs < f1)%nat →
  (size (nodeKeys m1) + length cs < f2)%nat →
  (size (linkKeys m1) + length cs < f2)%nat →
  ∃ ks m1' m2',
    create_all f1 m1 cs = Some (ks, m1') ∧
    create_all f2 m2 cs = Some (ks, m2') ∧
    nodeKeys m1' = nodeKeys m2' ∧
    linkKeys m1' = linkKeys m2' ∧
    (m1 = m2 → m1' = m2').
Proof.
  intros Hnk Hlk _. revert m1 m2 Hnk Hlk.
  induction cs as [|c cs IH]; intros m1 m2 Hnk Hlk Hn1 Hl1 Hn2 Hl2.
  - exists [], m1, m2. split; [reflexivity|]. split; [reflexivity|].
    split; [exact Hnk|]. split; [exact Hlk|]. intros Heq. exact Heq.
  - rewrite length_cons in Hn1, Hl1, Hn2, Hl2.
    destruct (create_two_runs f1 f2 m1 m2 c Hnk Hlk
                ltac:(lia) ltac:(lia) ltac:(lia) ltac:(lia))
      as (a & m1' & m2' & Hc1 & Hc2 & Hnk' & Hlk' & Hsn & Hsl & Hsame).
    destruct (IH m1' m2' Hnk' Hlk' ltac:(lia) ltac:(lia) ltac:(lia) ltac:(lia))
      as (ks & m1'' & m2'' & Hr1 & Hr2 & Hnk'' & Hlk'' & Hsame').
    exists (match a with Some k => k :: ks | None => ks end), m1'', m2''.
    rewrite !create_all_cons, Hc1, Hc2, Hr1, Hr2.
    split; [reflexivity|]. split; [reflexivity|].
    split; [exact Hnk''|]. split; [exact Hlk''|].
    intros Heq. apply Hsame', Hsame, Heq.
Qed.

Lemma key_assignment_deterministic_witness :
  nodeKeys model_12 = nodeKeys model_12_shuffled ∧
  linkKeys model_12 = linkKeys model_12_shuffled ∧
  ∃ ks m1' m2',
    create_all 8 model_12 session = Some (ks, m1') ∧
    create_all 11 model_12_shuffled session = Some (ks, m2') ∧
    ks = [3; -2; 4; -3].
Proof.
  assert (Hnk : nodeKeys model_12 = nodeKeys model_12_shuffled).
  { apply set_eq; intros j. rewrite <- !node_found_spec.
    unfold findNodeDataForKey, has_key. simpl.
    repeat case_bool_decide; naive_solver. }
  assert (Hlk : linkKeys model_12 = linkKeys model_12_shuffled).
  { apply set_eq; intros j. rewrite <- !link_found_spec.
    unfold findLinkDataForKey, has_key. simpl.
    repeat case_bool_decide; naive_solver. }
  split; [exact Hnk|]. split; [exact Hlk|].
  destruct (key_assignment_deterministic 8 11 model_12 model_12_shuffled session
              Hnk Hlk)
    as (ks & m1' & m2' & Hr1 & Hr2 & _).
  - rewrite size_nodeKeys_model_12, size_linkKeys_model_12.
    repeat constructor; vm_compute; discriminate.
  - rewrite size_nodeKeys_model_12. simpl. lia.
  - rewrite size_linkKeys_model_12. simpl. lia.
  - rewrite size_nodeKeys_model_12. simpl. lia.
  - rewrite size_linkKeys_model_12. simpl. lia.
  - exists ks, m1', m2'. split; [exact Hr1|]. split; [exact Hr2|].
    assert (Hrun : create_all 8 model_12 session
                   = Some ([3; -2; 4; -3],
                           snd (default ([], model_12) (create_all 8 model_12 session)))).
    { vm_compute. reflexivity. }
    rewrite Hrun in Hr1. by injection Hr1 as <- _.
Defined.

Example session_on_model_12 :
  fst <$> create_all 8 model_12 session = Some [3; -2; 4; -3] ∧
  fst <$> create_all 11 model_12_shuffled session = Some [3; -2; 4; -3].
Proof. split; vm_compute; reflexivity. Qed.

(** ** The diagram-event bridge *)

Lemma remove_first_absent x l : x ∉ l → remove_first x l = l.
Proof.
  induction l as [|y l IH]; intros Hx; simpl; [reflexivity|].
  apply not_elem_of_cons in Hx as [Hxy Hxl].
  rewrite decide_False by exact Hxy. by rewrite IH.
Qed.

Lemma remove_first_snoc_fresh x l : x ∉ l → remove_first x (l ++ [x]) = l.
Proof.
  induction l as [|y l IH]; intros Hx; simpl.
  - by rewrite decide_True.
  - apply not_elem_of_cons in Hx as [Hxy Hxl].
    rewrite decide_False by exact Hxy. by rewrite IH.
Qed.

Lemma remove_first_snoc_perm x l : remove_first x (l ++ [x]) ≡ₚ l.
Proof.
  induction l as [|y l IH]; simpl.
  - by rewrite decide_True.
  - destruct (decide (x = y)) as [->|Hne].
    + symmetry. apply Permutation_cons_append.
    + by rewrite IH.
Qed.

Lemma raiseDiagramEvent_add d name h e :
  raiseDiagramEvent (addDiagramListener name h d) e
  = raiseDiagramEvent d e ++ (if decide (name = ev_name e) then [(h, e)] else []).
Proof.
  unfold raiseDiagramEvent, addDiagramListener. simpl.
  rewrite filter_app, fmap_app. f_equal.
  rewrite filter_cons, filter_nil. simpl.
  by destruct (decide (name = ev_name e)).
Qed.

Lemma componentDidMount_diagram c d :
  diagram_of c = Some d →
  diagram_of (componentDidMount c)
  = Some (addDiagramListener "ChangedSelection" (onDiagramEvent (wrapper_props c)) d) ∧
  wrapper_props (componentDidMount c) = wrapper_props c.
Proof.
  unfold diagram_of, componentDidMount.
  destruct (diagramRef c) as [rd|]; [|discriminate].
  intros ->. split; reflexivity.
Qed.

Lemma componentWillUnmount_diagram c d :
  diagram_of c = Some d →
  diagram_of (componentWillUnmount c)
  = Some (removeDiagramListener "ChangedSelection" (onDiagramEvent (wrapper_props c)) d) ∧
  wrapper_props (componentWillUnmount c) = wrapper_props c.
Proof.
  unfold diagram_of, componentWillUnmount.
  destruct (diagramRef c) as [rd|]; [|discriminate].
  intros ->. split; reflexivity.
Qed.

(** Without a diagram behind the ref both lifecycle methods do nothing. *)
Lemma lifecycle_without_diagram c :
  diagram_of c = None →
  componentDidMount c = c ∧ componentWillUnmount c = c.
Proof.
  unfold diagram_of, componentDidMount, componentWillUnmount.
  destruct (diagramRef c) as [rd|]; [|by split].
  intros ->. by split.
Qed.

(** The event bridge while the props stay as they were at mount time.  On
    a wrapper whose ref holds a diagram, mounting adds exactly one
    subscription, for the selection-changed kind
    (['ChangedSelection']) and for the handler given at construction
    ([props.onDiagramEvent]); from then on every event of that kind that the
    surface raises is passed, unchanged, to that handler once more than
    before, and events of other kinds reach it no more than before;
    unmounting removes one subscription of that handler for that kind, so
    the subscriptions are again those from before the mount (the same list
    when the handler was not subscribed before, and none when there were
    none). *)
Lemma event_bridge_subscription c d :
  diagram_of c = Some d →
  let h := onDiagramEvent (wrapper_props c) in
  let mounted := componentDidMount c in
  let unmounted := componentWillUnmount mounted in
  listeners_of mounted = listeners d ++ [("ChangedSelection"%string, h)] ∧
  (∀ e, calls_on mounted e
        = calls_on c e
          ++ (if decide ("ChangedSelection"%string = ev_name e) then [(h, e)] else [])) ∧
  listeners_of unmounted ≡ₚ listeners d ∧
  ((("ChangedSelection"%string, h) ∉ listeners d) → listeners_of unmounted = listeners d) ∧
  (listeners d = [] → listeners_of unmounted = [] ∧ ∀ e, calls_on unmounted e = []).
Proof.
  intros Hd h mounted unmounted.
  destruct (componentDidMount_diagram c d Hd) as [Hm Hp].
  destruct (componentWillUnmount_diagram _ _ Hm) as [Hu _].
  fold mounted in Hm, Hp, Hu. fold unmounted in Hu. rewrite Hp in Hu. fold h in Hm, Hu.
  assert (Hfresh : ("ChangedSelection"%string, h) ∉ listeners d →
                   listeners_of unmounted = listeners d).
  { intros Hnot. unfold listeners_of. rewrite Hu. simpl.
    by apply remove_first_snoc_fresh. }
  split; [unfold listeners_of; by rewrite Hm|]. split.
  { intros e. unfold calls_on. rewrite Hm, Hd. apply raiseDiagramEvent_add. }
  split.
  { unfold listeners_of. rewrite Hu. simpl. apply remove_first_snoc_perm. }
  split; [exact Hfresh|].
  intros Hnil.
  assert (Hl : listeners_of unmounted = []).
  { rewrite Hfresh; [exact Hnil|]. rewrite Hnil. apply not_elem_of_nil. }
  split; [exact Hl|].
  intros e. unfold calls_on. unfold listeners_of in Hl.
  destruct (diagram_of unmounted) as [d'|]; [|reflexivity].
  unfold raiseDiagramEvent. by rewrite Hl.
Qed.

Lemma event_bridge_subscription_witness :
  diagram_of mounted_wrapper_0 = Some (mkDiagram []) ∧
  listeners_of (componentDidMount mounted_wrapper_0) = [("ChangedSelection"%string, 7%nat)] ∧
  listeners_of (componentWillUnmount (componentDidMount mounted_wrapper_0)) = [].
Proof.
  assert (Hd : diagram_of mounted_wrapper_0 = Some (mkDiagram [])) by reflexivity.
  split; [exact Hd|].
  destruct (event_bridge_subscription mounted_wrapper_0 (mkDiagram []) Hd)
    as (Hm & _ & _ & _ & Hnone).
  split; [exact Hm|]. exact (proj1 (Hnone eq_refl)).
Defined.

(** C7: the bridge is to remove at teardown exactly the subscription it
    added at mount, so that none remains.  The code does not when the parent
    has re-rendered the wrapper with another handler in between: both
    lifecycle methods read [this.props.onDiagramEvent] when they run, so the
    unmount asks to remove the handler of the latest props, which was never
    subscribed, and the handler subscribed at mount stays registered and goes
    on receiving the selection-changed events. *)
Theorem unmount_after_rerender_keeps_subscription c d p' :
  diagram_of c = Some d →
  onDiagramEvent p' ≠ onDiagramEvent (wrapper_props c) →
  ("ChangedSelection"%string, onDiagramEvent p') ∉ listeners d →
  let h := onDiagramEvent (wrapper_props c) in
  let unmounted := componentWillUnmount (rerender (componentDidMount c) p') in
  listeners_of unmounted = listeners d ++ [("ChangedSelection"%string, h)] ∧
  ∀ e, ev_name e = "ChangedSelection"%string → (h, e) ∈ calls_on unmounted e.
Proof.
  intros Hd Hne Hfresh h unmounted.
  destruct (componentDidMount_diagram c d Hd) as [Hm _]. fold h in Hm.
  assert (Hr : diagram_of (rerender (componentDidMount c) p')
               = Some (addDiagramListener "ChangedSelection" h d)).
  { exact Hm. }
  destruct (componentWillUnmount_diagram _ _ Hr) as [Hu _].
  fold unmounted in Hu. simpl in Hu.
  assert (Hl : listeners_of unmounted = listeners d ++ [("ChangedSelection"%string, h)]).
  { unfold listeners_of. rewrite Hu. simpl.
    apply remove_first_absent. rewrite elem_of_app, list_elem_of_singleton.
    intros [Hin | Heq]; [by apply Hfresh|].
    apply Hne. by injection Heq. }
  split; [exact Hl|].
  intros e He. unfold calls_on. unfold listeners_of in Hl.
  destruct (diagram_of unmounted) as [d'|].
  - unfold raiseDiagramEvent. rewrite Hl, filter_app, fmap_app.
    apply elem_of_app. right.
    rewrite filter_cons_True by (simpl; by rewrite He).
    simpl. apply list_elem_of_here.
  - by destruct (listeners d).
Qed.

Lemma unmount_after_rerender_keeps_subscription_witness :
  diagram_of mounted_wrapper_0 = Some (mkDiagram []) ∧
  onDiagramEvent props_9 ≠ onDiagramEvent (wrapper_props mounted_wrapper_0) ∧
  listeners_of
    (componentWillUnmount (rerender (componentDidMount mounted_wrapper_0) props_9))
  = [("ChangedSelection"%string, 7%nat)].
Proof.
  assert (Hd : diagram_of mounted_wrapper_0 = Some (mkDiagram [])) by reflexivity.
  assert (Hne : onDiagramEvent props_9
                ≠ onDiagramEvent (wrapper_props mounted_wrapper_0)).
  { simpl. discriminate. }
  split; [exact Hd|]. split; [exact Hne|].
  apply (unmount_after_rerender_keeps_subscription mounted_wrapper_0 (mkDiagram [])
           props_9 Hd Hne).
  apply not_elem_of_nil.
Defined.

Example stale_handler_still_called :
  calls_on
    (componentWillUnmount (rerender (componentDidMount mounted_wrapper_0) props_9))
    (mkDiagramEvent "ChangedSelection" 42)
  = [(7%nat, mkDiagramEvent "ChangedSelection" 42)].
Proof. reflexivity. Qed.

Example selection_event_forwarded :
  calls_on (componentDidMount mounted_wrapper_0) (mkDiagramEvent "ChangedSelection" 42)
  = [(7%nat, mkDiagramEvent "ChangedSelection" 42)] ∧
  calls_on (componentDidMount mounted_wrapper_0) (mkDiagramEvent "ObjectSingleClicked" 42)
  = [] ∧
  calls_on (componentWillUnmount (componentDidMount mounted_wrapper_0))
           (mkDiagramEvent "ChangedSelection" 42)
  = [].
Proof. repeat split. Qed.

(** ** The templates *)

(** The node template sets both interaction flags to [false] and none of
    its top-level bindings targets either flag; the link template leaves
    them at the part's defaults. *)
Lemma nodeTemplate_flags :
  copyable (flags nodeTemplate) = Some false ∧
  deletable (flags nodeTemplate) = Some false ∧
  Forall (λ b, target b ≠ "copyable"%string ∧ target b ≠ "deletable"%string)
         (bindings nodeTemplate) ∧
  copyable (flags linkTemplate) = None ∧
  deletable (flags linkTemplate) = None.
Proof.
  split; [reflexivity|]. split; [reflexivity|]. split; [|by split].
  repeat constructor; discriminate.
Qed.

(** ** Further properties of the allocators *)

Lemma set_key_same data k : key data = Some k → set_key data k = data.
Proof. destruct data as [k0 p]. simpl. intros ->. reflexivity. Qed.

Lemma set_key_set_key data k k' : set_key (set_key data k) k' = set_key data k'.
Proof. reflexivity. Qed.

(** The result of the upward loop is below every free key from the start
    on; the result of the downward loop is above every free key from the
    start down. *)
Lemma while_findNode_least fuel m k r j :
  while_findNode fuel m k = Some r → k ≤ j → j ∉ nodeKeys m → r ≤ j.
Proof.
  intros Hr Hkj Hfree.
  destruct (while_findNode_first_free _ _ _ _ Hr) as (_ & _ & Hbelow & _).
  destruct (Z_le_gt_dec r j) as [Hle|Hgt]; [exact Hle|].
  exfalso. apply Hfree, Hbelow; lia.
Qed.

Lemma while_findLink_greatest fuel m k r j :
  while_findLink fuel m k = Some r → j ≤ k → j ∉ linkKeys m → j ≤ r.
Proof.
  intros Hr Hkj Hfree.
  destruct (while_findLink_first_free _ _ _ _ Hr) as (_ & _ & Hbelow & _).
  destruct (Z_le_gt_dec j r) as [Hle|Hgt]; [exact Hle|].
  exfalso. apply Hfree, Hbelow; lia.
Qed.

Lemma while_findNode_free_start fuel m k :
  (0 < fuel)%nat → findNodeDataForKey m k = None → while_findNode fuel m k = Some k.
Proof. destruct fuel as [|fuel]; [lia|]. intros _ Hk. simpl. by rewrite Hk. Qed.

Lemma while_findLink_free_start fuel m k :
  (0 < fuel)%nat → findLinkDataForKey m k = None → while_findLink fuel m k = Some k.
Proof. destruct fuel as [|fuel]; [lia|]. intros _ Hk. simpl. by rewrite Hk. Qed.

(** A requested key that is not [0] and is free is kept: the loop body
    does not run, the allocator returns the requested key, whatever its
    sign, and the datum is as it was. *)
Theorem free_request_is_kept fuel m data k :
  (0 < fuel)%nat →
  key data = Some k →
  k ≠ 0 →
  (findNodeDataForKey m k = None →
   makeUniqueKeyFunction fuel m data = Some (k, data)) ∧
  (findLinkDataForKey m k = None →
   makeUniqueLinkKeyFunction fuel m data = Some (k, data)).
Proof.
  intros Hfuel Hkey Hk. split; intros Hfree.
  - unfold makeUniqueKeyFunction. rewrite Hkey, (js_or_nonzero _ _ Hk).
    rewrite (while_findNode_free_start _ _ _ Hfuel Hfree).
    by rewrite (set_key_same _ _ Hkey).
  - unfold makeUniqueLinkKeyFunction. rewrite Hkey, (js_or_nonzero _ _ Hk).
    rewrite (while_findLink_free_start _ _ _ Hfuel Hfree).
    by rewrite (set_key_same _ _ Hkey).
Qed.

Lemma free_request_is_kept_witness :
  (0 < 1)%nat ∧ key (datum (Some (-7)) "N") = Some (-7) ∧ -7 ≠ 0 ∧
  makeUniqueKeyFunction 1 model_12 (datum (Some (-7)) "N")
  = Some (-7, datum (Some (-7)) "N") ∧
  makeUniqueLinkKeyFunction 1 model_12 (datum (Some (-7)) "N")
  = Some (-7, datum (Some (-7)) "N").
Proof.
  assert (Hfuel : (0 < 1)%nat) by lia.
  assert (Hk : -7 ≠ 0) by lia.
  split; [exact Hfuel|]. split; [reflexivity|]. split; [exact Hk|].
  destruct (free_request_is_kept 1 model_12 (datum (Some (-7)) "N") (-7)
              Hfuel eq_refl Hk) as [Hnode Hlink].
  split; [apply Hnode | apply Hlink]; reflexivity.
Defined.

(** The two key spaces stay apart.  As long as the keys involved are safe
    integers, a node request that is unset, [0] or positive yields a key that
    is positive and not below the request; a link request that is unset, [0]
    or negative yields a key that is negative and not above the request; so a
    node key and a link key obtained this way, from whatever models, are
    never equal. *)
Theorem key_spaces_apart fuel mn ml dn dl seedn seedl :
  seedn = match key dn with
          | Some k0 => if decide (k0 = 0) then 1 else k0
          | None => 1
          end →
  seedl = match key dl with
          | Some k0 => if decide (k0 = 0) then -1 else k0
          | None => -1
          end →
  0 < seedn →
  seedl < 0 →
  safe_integer (seedn + Z.of_nat (size (nodeKeys mn))) →
  safe_integer (seedl - Z.of_nat (size (linkKeys ml))) →
  (size (nodeKeys mn) < fuel)%nat →
  (size (linkKeys ml) < fuel)%nat →
  ∃ kn kl,
    makeUniqueKeyFunction fuel mn dn = Some (kn, set_key dn kn) ∧
    makeUniqueLinkKeyFunction fuel ml dl = Some (kl, set_key dl kl) ∧
    0 < kn ∧ kl < 0 ∧ kn ≠ kl ∧ seedn ≤ kn ∧ kl ≤ seedl ∧
    safe_integer kn ∧ safe_integer kl.
Proof.
  intros Hseedn Hseedl Hposn Hnegl Hfarn Hfarl Hn Hl.
  rewrite <- js_or_cases in Hseedn, Hseedl. subst seedn seedl.
  destruct (makeUniqueKeyFunction_total fuel mn dn Hn) as (kn & Hmkn & Hloopn).
  destruct (makeUniqueLinkKeyFunction_total fuel ml dl Hl) as (kl & Hmkl & Hloopl).
  destruct (while_findNode_first_free _ _ _ _ Hloopn) as (Hlen & _ & _ & Hbn & _).
  destruct (while_findLink_first_free _ _ _ _ Hloopl) as (Hlel & _ & _ & Hbl & _).
  exists kn, kl. split; [exact Hmkn|]. split; [exact Hmkl|].
  repeat split; safe_lia.
Qed.

Lemma key_spaces_apart_witness :
  0 < 2 ∧ -1 < 0 ∧
  safe_integer (2 + Z.of_nat (size (nodeKeys model_12))) ∧
  safe_integer (-1 - Z.of_nat (size (linkKeys model_gap))) ∧
  (size (nodeKeys model_12) < 3)%nat ∧
  (size (linkKeys model_gap) < 3)%nat ∧
  ∃ kn kl,
    makeUniqueKeyFunction 3 model_12 (datum (Some 2) "B'")
    = Some (kn, set_key (datum (Some 2) "B'") kn) ∧
    makeUniqueLinkKeyFunction 3 model_gap (datum None "L")
    = Some (kl, set_key (datum None "L") kl) ∧
    kn ≠ kl.
Proof.
  assert (Hposn : 0 < 2) by lia.
  assert (Hnegl : -1 < 0) by lia.
  assert (Hfarn : safe_integer (2 + Z.of_nat (size (nodeKeys model_12)))).
  { vm_compute. split; discriminate. }
  assert (Hfarl : safe_integer (-1 - Z.of_nat (size (linkKeys model_gap)))).
  { vm_compute. split; discriminate. }
  assert (Hn : (size (nodeKeys model_12) < 3)%nat).
  { rewrite size_nodeKeys_model_12. lia. }
  assert (Hl : (size (linkKeys model_gap) < 3)%nat).
  { vm_compute. lia. }
  split; [exact Hposn|]. split; [exact Hnegl|]. split; [exact Hfarn|].
  split; [exact Hfarl|]. split; [exact Hn|]. split; [exact Hl|].
  destruct (key_spaces_apart 3 model_12 model_gap (datum (Some 2) "B'")
              (datum None "L") 2 (-1) eq_refl eq_refl Hposn Hnegl Hfarn Hfarl Hn Hl)
    as (kn & kl & Hmkn & Hmkl & _ & _ & Hne & _).
  exists kn, kl. split; [exact Hmkn|]. split; [exact Hmkl | exact Hne].
Defined.

(** Allocating again for the datum an allocator has just returned, on the
    same model, changes nothing: whenever an allocator returns a key that is
    not [0], a second call on the returned datum returns the same key and the
    same datum. *)
Theorem allocation_is_idempotent fuel m data k data' :
  k ≠ 0 →
  (makeUniqueKeyFunction fuel m data = Some (k, data') →
   makeUniqueKeyFunction fuel m data' = Some (k, data')) ∧
  (makeUniqueLinkKeyFunction fuel m data = Some (k, data') →
   makeUniqueLinkKeyFunction fuel m data' = Some (k, data')).
Proof.
  intros Hk. split; intros Hmk.
  - apply makeUniqueKeyFunction_inv in Hmk as [Hloop ->].
    destruct (while_findNode_first_free _ _ _ _ Hloop) as (Hle & Hfree & _ & _ & Hf).
    unfold makeUniqueKeyFunction. change (key (set_key data k)) with (Some k).
    rewrite (js_or_nonzero _ _ Hk).
    rewrite while_findNode_free_start; [reflexivity | lia | by apply node_free_spec].
  - apply makeUniqueLinkKeyFunction_inv in Hmk as [Hloop ->].
    destruct (while_findLink_first_free _ _ _ _ Hloop) as (Hle & Hfree & _ & _ & Hf).
    unfold makeUniqueLinkKeyFunction. change (key (set_key data k)) with (Some k).
    rewrite (js_or_nonzero _ _ Hk).
    rewrite while_findLink_free_start; [reflexivity | lia | by apply link_free_spec].
Qed.

Lemma allocation_is_idempotent_witness :
  3 ≠ 0 ∧
  makeUniqueKeyFunction 3 model_12 (datum (Some 1) "A'")
  = Some (3, datum (Some 3) "A'") ∧
  makeUniqueKeyFunction 3 model_12 (datum (Some 3) "A'")
  = Some (3, datum (Some 3) "A'").
Proof.
  assert (Hk : 3 ≠ 0) by lia.
  assert (Hmk : makeUniqueKeyFunction 3 model_12 (datum (Some 1) "A'")
                = Some (3, datum (Some 3) "A'")) by (vm_compute; reflexivity).
  split; [exact Hk|]. split; [exact Hmk|].
  exact (proj1 (allocation_is_idempotent 3 model_12 (datum (Some 1) "A'") 3
                  (datum (Some 3) "A'") Hk) Hmk).
Defined.

(** An allocator can return [0], which the next call takes for "unset".
    When a node request is negative, every key from it up to [-1] is the key
    of a node and [0] is free, the node allocator returns [0]; allocating
    again for the returned datum then gives a positive key.  The link
    allocator mirrors this for a positive request. *)
Theorem allocator_can_return_zero fuel m data k0 :
  (size (nodeKeys m) < fuel)%nat →
  (size (linkKeys m) < fuel)%nat →
  key data = Some k0 →
  (k0 < 0 →
   (∀ j, k0 ≤ j → j < 0 → is_Some (findNodeDataForKey m j)) →
   findNodeDataForKey m 0 = None →
   makeUniqueKeyFunction fuel m data = Some (0, set_key data 0) ∧
   ∃ k, makeUniqueKeyFunction fuel m (set_key data 0) = Some (k, set_key data k) ∧
        0 < k) ∧
  (0 < k0 →
   (∀ j, 0 < j → j ≤ k0 → is_Some (findLinkDataForKey m j)) →
   findLinkDataForKey m 0 = None →
   makeUniqueLinkKeyFunction fuel m data = Some (0, set_key data 0) ∧
   ∃ k, makeUniqueLinkKeyFunction fuel m (set_key data 0) = Some (k, set_key data k) ∧
        k < 0).
Proof.
  intros Hn Hl Hkey. split.
  - intros Hneg Htaken Hzero.
    destruct (makeUniqueKeyFunction_total fuel m data Hn) as (r & Hmk & Hloop).
    rewrite Hkey, js_or_nonzero in Hloop by lia.
    destruct (while_findNode_first_free _ _ _ _ Hloop) as (Hle & Hfree & _).
    pose proof (while_findNode_least _ _ _ _ 0 Hloop ltac:(lia)
                  (proj1 (node_free_spec m 0) Hzero)) as Hr0.
    assert (r = 0) as ->.
    { destruct (Z.eq_dec r 0) as [|Hne]; [assumption|].
      exfalso. apply Hfree. apply node_found_spec. apply Htaken; lia. }
    split; [exact Hmk|].
    destruct (makeUniqueKeyFunction_total fuel m (set_key data 0) Hn)
      as (k & Hmk' & Hloop').
    simpl in Hloop'.
    destruct (while_findNode_first_free _ _ _ _ Hloop') as (Hle' & _).
    exists k. rewrite set_key_set_key in Hmk'. split; [exact Hmk' | lia].
  - intros Hpos Htaken Hzero.
    destruct (makeUniqueLinkKeyFunction_total fuel m data Hl) as (r & Hmk & Hloop).
    rewrite Hkey, js_or_nonzero in Hloop by lia.
    destruct (while_findLink_first_free _ _ _ _ Hloop) as (Hle & Hfree & _).
    pose proof (while_findLink_greatest _ _ _ _ 0 Hloop ltac:(lia)
                  (proj1 (link_free_spec m 0) Hzero)) as Hr0.
    assert (r = 0) as ->.
    { destruct (Z.eq_dec r 0) as [|Hne]; [assumption|].
      exfalso. apply Hfree. apply link_found_spec. apply Htaken; lia. }
    split; [exact Hmk|].
    destruct (makeUniqueLinkKeyFunction_total fuel m (set_key data 0) Hl)
      as (k & Hmk' & Hloop').
    simpl in Hloop'.
    destruct (while_findLink_first_free _ _ _ _ Hloop') as (Hle' & _).
    exists k. rewrite set_key_set_key in Hmk'. split; [exact Hmk' | lia].
Qed.

Lemma allocator_can_return_zero_witness :
  (size (nodeKeys model_crossed) < 2)%nat ∧
  (size (linkKeys model_crossed) < 2)%nat ∧
  key (datum (Some (-1)) "N'") = Some (-1) ∧
  makeUniqueKeyFunction 2 model_crossed (datum (Some (-1)) "N'")
  = Some (0, set_key (datum (Some (-1)) "N'") 0) ∧
  ∃ k, makeUniqueKeyFunction 2 model_crossed (set_key (datum (Some (-1)) "N'") 0)
       = Some (k, set_key (datum (Some (-1)) "N'") k) ∧ 0 < k.
Proof.
  assert (Hn : (size (nodeKeys model_crossed) < 2)%nat) by (vm_compute; lia).
  assert (Hl : (size (linkKeys model_crossed) < 2)%nat) by (vm_compute; lia).
  split; [exact Hn|]. split; [exact Hl|]. split; [reflexivity|].
  apply (proj1 (allocator_can_return_zero 2 model_crossed
                  (datum (Some (-1)) "N'") (-1) Hn Hl eq_refl)).
  - lia.
  - intros j Hj1 Hj2. assert (j = -1) as -> by lia. by eexists.
  - reflexivity.
Defined.

(** An allocation depends on the model only through the set of keys of
    its kind: the order of the data, repeated keys, the other properties of
    the data and the data of the other kind do not matter. *)
Theorem allocation_depends_on_key_set fuel m1 m2 data :
  (nodeKeys m1 = nodeKeys m2 →
   makeUniqueKeyFunction fuel m1 data = makeUniqueKeyFunction fuel m2 data) ∧
  (linkKeys m1 = linkKeys m2 →
   makeUniqueLinkKeyFunction fuel m1 data = makeUniqueLinkKeyFunction fuel m2 data).
Proof.
  split; intros Heq.
  - unfold makeUniqueKeyFunction. rewrite !while_findNode_probe.
    by rewrite (probe_ext _ _ _ _ _ (node_taken_ext _ _ Heq)).
  - unfold makeUniqueLinkKeyFunction. rewrite !while_findLink_probe.
    by rewrite (probe_ext _ _ _ _ _ (link_taken_ext _ _ Heq)).
Qed.

Lemma keys_model_12_shuffled :
  nodeKeys model_12 = nodeKeys model_12_shuffled ∧
  linkKeys model_12 = linkKeys model_12_shuffled.
Proof.
  split; apply set_eq; intros j.
  - rewrite <- !node_found_spec. unfold findNodeDataForKey, has_key. simpl.
    repeat case_bool_decide; naive_solver.
  - rewrite <- !link_found_spec. unfold findLinkDataForKey, has_key. simpl.
    repeat case_bool_decide; naive_solver.
Qed.

Lemma allocation_depends_on_key_set_witness :
  nodeKeys model_12 = nodeKeys model_12_shuffled ∧
  makeUniqueKeyFunction 3 model_12_shuffled (datum None "C")
  = Some (3, datum (Some 3) "C").
Proof.
  split; [exact (proj1 keys_model_12_shuffled)|].
  rewrite <- (proj1 (allocation_depends_on_key_set 3 model_12 model_12_shuffled
                      (datum None "C")) (proj1 keys_model_12_shuffled)).
  reflexivity.
Defined.

(** More keys in use never lower an allocated node key and never raise an
    allocated link key, as long as the keys involved are safe integers: when
    every key of the first model is a key of the second, the node key
    allocated on the second is at least the one allocated on the first, and
    the link key at most. *)
Theorem allocation_is_monotone fuel m m' data seedn seedl :
  seedn = match key data with
          | Some k0 => if decide (k0 = 0) then 1 else k0
          | None => 1
          end →
  seedl = match key data with
          | Some k0 => if decide (k0 = 0) then -1 else k0
          | None => -1
          end →
  (size (nodeKeys m') < fuel)%nat →
  (size (linkKeys m') < fuel)%nat →
  (nodeKeys m ⊆ nodeKeys m' →
   safe_integer seedn →
   safe_integer (seedn + Z.of_nat (size (nodeKeys m'))) →
   ∃ k k', makeUniqueKeyFunction fuel m data = Some (k, set_key data k) ∧
           makeUniqueKeyFunction fuel m' data = Some (k', set_key data k') ∧
           k ≤ k' ∧ safe_integer k ∧ safe_integer k') ∧
  (linkKeys m ⊆ linkKeys m' →
   safe_integer seedl →
   safe_integer (seedl - Z.of_nat (size (linkKeys m'))) →
   ∃ k k', makeUniqueLinkKeyFunction fuel m data = Some (k, set_key data k) ∧
           makeUniqueLinkKeyFunction fuel m' data = Some (k', set_key data k') ∧
           k' ≤ k ∧ safe_integer k ∧ safe_integer k').
Proof.
  intros Hseedn Hseedl Hn Hl.
  rewrite <- js_or_cases in Hseedn, Hseedl. subst seedn seedl.
  split; intros Hsub Hsafe Hfar.
  - pose proof (subseteq_size _ _ Hsub) as Hsz.
    destruct (makeUniqueKeyFunction_total fuel m data ltac:(lia)) as (k & Hmk & Hloop).
    destruct (makeUniqueKeyFunction_total fuel m' data Hn) as (k' & Hmk' & Hloop').
    exists k, k'. split; [exact Hmk|]. split; [exact Hmk'|].
    destruct (while_findNode_first_free _ _ _ _ Hloop) as (Hle & _ & _ & Hb & _).
    destruct (while_findNode_first_free _ _ _ _ Hloop')
      as (Hle' & Hfree' & _ & Hb' & _).
    split; [|split; safe_lia].
    apply (while_findNode_least _ _ _ _ _ Hloop Hle').
    intros Hin. apply Hfree', Hsub, Hin.
  - pose proof (subseteq_size _ _ Hsub) as Hsz.
    destruct (makeUniqueLinkKeyFunction_total fuel m data ltac:(lia)) as (k & Hmk & Hloop).
    destruct (makeUniqueLinkKeyFunction_total fuel m' data Hl) as (k' & Hmk' & Hloop').
    exists k, k'. split; [exact Hmk|]. split; [exact Hmk'|].
    destruct (while_findLink_first_free _ _ _ _ Hloop) as (Hle & _ & _ & Hb & _).
    destruct (while_findLink_first_free _ _ _ _ Hloop')
      as (Hle' & Hfree' & _ & Hb' & _).
    split; [|split; safe_lia].
    apply (while_findLink_greatest _ _ _ _ _ Hloop Hle').
    intros Hin. apply Hfree', Hsub, Hin.
Qed.

Lemma nodeKeys_model_1_sub_12 : nodeKeys model_1 ⊆ nodeKeys model_12.
Proof.
  intros j. rewrite <- !node_found_spec.
  unfold findNodeDataForKey, has_key. simpl.
  repeat case_bool_decide; naive_solver.
Qed.

Lemma allocation_is_monotone_witness :
  (size (nodeKeys model_12) < 3)%nat ∧
  (size (linkKeys model_12) < 3)%nat ∧
  nodeKeys model_1 ⊆ nodeKeys model_12 ∧
  safe_integer 1 ∧
  safe_integer (1 + Z.of_nat (size (nodeKeys model_12))) ∧
  ∃ k k', makeUniqueKeyFunction 3 model_1 (datum None "C")
          = Some (k, set_key (datum None "C") k) ∧
          makeUniqueKeyFunction 3 model_12 (datum None "C")
          = Some (k', set_key (datum None "C") k') ∧
          k ≤ k'.
Proof.
  assert (Hn : (size (nodeKeys model_12) < 3)%nat).
  { rewrite size_nodeKeys_model_12. lia. }
  assert (Hl : (size (linkKeys model_12) < 3)%nat).
  { rewrite size_linkKeys_model_12. lia. }
  assert (Hsafe : safe_integer 1) by (vm_compute; split; discriminate).
  assert (Hfar : safe_integer (1 + Z.of_nat (size (nodeKeys model_12)))).
  { vm_compute. split; discriminate. }
  split; [exact Hn|]. split; [exact Hl|]. split; [exact nodeKeys_model_1_sub_12|].
  split; [exact Hsafe|]. split; [exact Hfar|].
  destruct (proj1 (allocation_is_monotone 3 model_1 model_12 (datum None "C") 1 (-1)
                     eq_refl eq_refl Hn Hl)
              nodeKeys_model_1_sub_12 Hsafe Hfar)
    as (k & k' & Hmk & Hmk' & Hle & _).
  exists k, k'. split; [exact Hmk|]. split; [exact Hmk' | exact Hle].
Defined.

(** Once the datum an allocator returned is among the model's data, a
    later allocation whose seed is not on the near side of the earlier seed
    passes the earlier key, as long as the keys involved are safe integers:
    later node keys are strictly larger, later link keys strictly smaller.
    In particular keyless allocations, with the allocated data inserted in
    between, give strictly increasing node keys and strictly decreasing link
    keys. *)
Theorem later_allocation_passes_earlier fuel m d1 d2 :
  (S (size (nodeKeys m)) < fuel)%nat →
  (S (size (linkKeys m)) < fuel)%nat →
  (∀ s1 s2,
     s1 = match key d1 with
          | Some k0 => if decide (k0 = 0) then 1 else k0
          | None => 1
          end →
     s2 = match key d2 with
          | Some k0 => if decide (k0 = 0) then 1 else k0
          | None => 1
          end →
     s1 ≤ s2 →
     safe_integer s1 →
     safe_integer (s2 + Z.of_nat (S (size (nodeKeys m)))) →
     ∃ k1 k2,
       makeUniqueKeyFunction fuel m d1 = Some (k1, set_key d1 k1) ∧
       makeUniqueKeyFunction fuel (with_node m (set_key d1 k1)) d2
       = Some (k2, set_key d2 k2) ∧
       k1 < k2 ∧ safe_integer k1 ∧ safe_integer k2) ∧
  (∀ s1 s2,
     s1 = match key d1 with
          | Some k0 => if decide (k0 = 0) then -1 else k0
          | None => -1
          end →
     s2 = match key d2 with
          | Some k0 => if decide (k0 = 0) then -1 else k0
          | None => -1
          end →
     s2 ≤ s1 →
     safe_integer s1 →
     safe_integer (s2 - Z.of_nat (S (size (linkKeys m)))) →
     ∃ k1 k2,
       makeUniqueLinkKeyFunction fuel m d1 = Some (k1, set_key d1 k1) ∧
       makeUniqueLinkKeyFunction fuel (with_link m (set_key d1 k1)) d2
       = Some (k2, set_key d2 k2) ∧
       k2 < k1 ∧ safe_integer k1 ∧ safe_integer k2).
Proof.
  intros Hn Hl. split; intros s1 s2 Hs1 Hs2 Hseed Hsafe Hfar;
    rewrite <- js_or_cases in Hs1, Hs2; subst s1 s2.
  - destruct (makeUniqueKeyFunction_total fuel m d1 ltac:(lia)) as (k1 & Hmk1 & Hloop1).
    destruct (while_findNode_first_free _ _ _ _ Hloop1)
      as (Hle1 & Hfree1 & Hbelow1 & Hb1 & _).
    assert (Hkeys : nodeKeys (with_node m (set_key d1 k1)) = nodeKeys m ∪ {[k1]}).
    { by apply nodeKeys_snoc. }
    pose proof (size_add_le (nodeKeys m) k1) as Hszle.
    destruct (makeUniqueKeyFunction_total fuel (with_node m (set_key d1 k1)) d2)
      as (k2 & Hmk2 & Hloop2).
    { rewrite Hkeys. lia. }
    destruct (while_findNode_first_free _ _ _ _ Hloop2)
      as (Hle2 & Hfree2 & _ & Hb2 & _).
    rewrite Hkeys in Hb2.
    rewrite Hkeys, not_elem_of_union, elem_of_singleton in Hfree2.
    destruct Hfree2 as [Hfree2 Hne].
    exists k1, k2. split; [exact Hmk1|]. split; [exact Hmk2|].
    split; [|split; safe_lia].
    destruct (Z_lt_ge_dec k1 k2) as [Hlt|Hge]; [exact Hlt|].
    exfalso. apply Hfree2, Hbelow1; lia.
  - destruct (makeUniqueLinkKeyFunction_total fuel m d1 ltac:(lia))
      as (k1 & Hmk1 & Hloop1).
    destruct (while_findLink_first_free _ _ _ _ Hloop1)
      as (Hle1 & Hfree1 & Hbelow1 & Hb1 & _).
    assert (Hkeys : linkKeys (with_link m (set_key d1 k1)) = linkKeys m ∪ {[k1]}).
    { by apply linkKeys_snoc. }
    pose proof (size_add_le (linkKeys m) k1) as Hszle.
    destruct (makeUniqueLinkKeyFunction_total fuel (with_link m (set_key d1 k1)) d2)
      as (k2 & Hmk2 & Hloop2).
    { rewrite Hkeys. lia. }
    destruct (while_findLink_first_free _ _ _ _ Hloop2)
      as (Hle2 & Hfree2 & _ & Hb2 & _).
    rewrite Hkeys in Hb2.
    rewrite Hkeys, not_elem_of_union, elem_of_singleton in Hfree2.
    destruct Hfree2 as [Hfree2 Hne].
    exists k1, k2. split; [exact Hmk1|]. split; [exact Hmk2|].
    split; [|split; safe_lia].
    destruct (Z_lt_ge_dec k2 k1) as [Hlt|Hge]; [exact Hlt|].
    exfalso. apply Hfree2, Hbelow1; lia.
Qed.

Lemma later_allocation_passes_earlier_witness :
  (S (size (nodeKeys model_gap)) < 4)%nat ∧
  (S (size (linkKeys model_gap)) < 4)%nat ∧
  safe_integer 1 ∧
  safe_integer (1 + Z.of_nat (S (size (nodeKeys model_gap)))) ∧
  ∃ k1 k2,
    makeUniqueKeyFunction 4 model_gap (datum None "B")
    = Some (k1, set_key (datum None "B") k1) ∧
    makeUniqueKeyFunction 4 (with_node model_gap (set_key (datum None "B") k1))
      (datum (Some 0) "D")
    = Some (k2, set_key (datum (Some 0) "D") k2) ∧
    k1 < k2.
Proof.
  assert (Hn : (S (size (nodeKeys model_gap)) < 4)%nat) by (vm_compute; lia).
  assert (Hl : (S (size (linkKeys model_gap)) < 4)%nat) by (vm_compute; lia).
  assert (Hsafe : safe_integer 1) by (vm_compute; split; discriminate).
  assert (Hfar : safe_integer (1 + Z.of_nat (S (size (nodeKeys model_gap))))).
  { vm_compute. split; discriminate. }
  split; [exact Hn|]. split; [exact Hl|]. split; [exact Hsafe|]. split; [exact Hfar|].
  destruct (proj1 (later_allocation_passes_earlier 4 model_gap
                     (datum None "B") (datum (Some 0) "D") Hn Hl)
              1 1 eq_refl eq_refl ltac:(lia) Hsafe Hfar)
    as (k1 & k2 & Hmk1 & Hmk2 & Hlt & _).
  exists k1, k2. split; [exact Hmk1|]. split; [exact Hmk2 | exact Hlt].
Defined.

Example gap_then_next :
  makeUniqueKeyFunction 4 model_gap (datum None "B") = Some (2, datum (Some 2) "B") ∧
  makeUniqueKeyFunction 4 (with_node model_gap (datum (Some 2) "B")) (datum (Some 0) "D")
  = Some (4, datum (Some 4) "D").
Proof. split; vm_compute; reflexivity. Qed.

(** The allocators fill the gap nearest to the seed, as long as the keys
    involved are safe integers: when the keys from the seed up to [g - 1]
    are keys of nodes and [g] is free, the node allocator returns [g], also
    when larger keys are in use; and the mirror image for links. *)
Theorem allocation_fills_nearest_gap fuel m data g seedn seedl :
  seedn = match key data with
          | Some k0 => if decide (k0 = 0) then 1 else k0
          | None => 1
          end →
  seedl = match key data with
          | Some k0 => if decide (k0 = 0) then -1 else k0
          | None => -1
          end →
  safe_integer g →
  (size (nodeKeys m) < fuel)%nat →
  (size (linkKeys m) < fuel)%nat →
  (safe_integer seedn →
   seedn ≤ g →
   (∀ j, seedn ≤ j → j < g → is_Some (findNodeDataForKey m j)) →
   findNodeDataForKey m g = None →
   makeUniqueKeyFunction fuel m data = Some (g, set_key data g)) ∧
  (safe_integer seedl →
   g ≤ seedl →
   (∀ j, g < j → j ≤ seedl → is_Some (findLinkDataForKey m j)) →
   findLinkDataForKey m g = None →
   makeUniqueLinkKeyFunction fuel m data = Some (g, set_key data g)).
Proof.
  intros Hseedn Hseedl Hg Hn Hl.
  rewrite <- js_or_cases in Hseedn, Hseedl. subst seedn seedl.
  split; intros Hsafe Hseed Htaken Hfree.
  - destruct (makeUniqueKeyFunction_total fuel m data Hn) as (k & Hmk & Hloop).
    destruct (while_findNode_first_free _ _ _ _ Hloop) as (Hle & Hkfree & _).
    pose proof (while_findNode_least _ _ _ _ g Hloop Hseed
                  (proj1 (node_free_spec m g) Hfree)) as Hkg.
    assert (k = g) as ->; [|exact Hmk].
    destruct (Z.eq_dec k g) as [|Hne]; [assumption|].
    exfalso. apply Hkfree, node_found_spec, Htaken; lia.
  - destruct (makeUniqueLinkKeyFunction_total fuel m data Hl) as (k & Hmk & Hloop).
    destruct (while_findLink_first_free _ _ _ _ Hloop) as (Hle & Hkfree & _).
    pose proof (while_findLink_greatest _ _ _ _ g Hloop Hseed
                  (proj1 (link_free_spec m g) Hfree)) as Hkg.
    assert (k = g) as ->; [|exact Hmk].
    destruct (Z.eq_dec k g) as [|Hne]; [assumption|].
    exfalso. apply Hkfree, link_found_spec, Htaken; lia.
Qed.

Lemma allocation_fills_nearest_gap_witness :
  safe_integer (-2) ∧
  (size (nodeKeys model_gap) < 3)%nat ∧
  (size (linkKeys model_gap) < 3)%nat ∧
  safe_integer (-1) ∧
  makeUniqueLinkKeyFunction 3 model_gap (datum None "L")
  = Some (-2, set_key (datum None "L") (-2)).
Proof.
  assert (Hg : safe_integer (-2)) by (vm_compute; split; discriminate).
  assert (Hn : (size (nodeKeys model_gap) < 3)%nat) by (vm_compute; lia).
  assert (Hl : (size (linkKeys model_gap) < 3)%nat) by (vm_compute; lia).
  assert (Hsafe : safe_integer (-1)) by (vm_compute; split; discriminate).
  split; [exact Hg|]. split; [exact Hn|]. split; [exact Hl|]. split; [exact Hsafe|].
  apply (proj2 (allocation_fills_nearest_gap 3 model_gap (datum None "L") (-2) 1 (-1)
                  eq_refl eq_refl Hg Hn Hl)).
  - exact Hsafe.
  - lia.
  - intros j Hj1 Hj2. assert (j = -1) as -> by lia. by eexists.
  - reflexivity.
Defined.

(** ** Further properties of the lifecycle methods *)

Lemma remove_first_others x l :
  filter (λ y, y ≠ x) (remove_first x l) = filter (λ y, y ≠ x) l.
Proof.
  induction l as [|y l IH]; simpl; [reflexivity|].
  destruct (decide (x = y)) as [->|Hne].
  - rewrite filter_cons_False; [reflexivity|]. by intros H.
  - rewrite !filter_cons_True by (by intros ->). by rewrite IH.
Qed.

Lemma remove_first_length x l :
  x ∈ l → length l = S (length (remove_first x l)).
Proof.
  induction l as [|y l IH]; intros Hx; simpl.
  - by apply elem_of_nil in Hx.
  - destruct (decide (x = y)) as [->|Hne]; [reflexivity|].
    apply elem_of_cons in Hx as [Hxy|Hxl]; [contradiction|].
    simpl. by rewrite <- IH.
Qed.

Lemma listeners_of_unmount c :
  listeners_of (componentWillUnmount c)
  = remove_first (own_subscription c) (listeners_of c).
Proof.
  unfold listeners_of.
  destruct (diagram_of c) as [d|] eqn:Hd.
  - destruct (componentWillUnmount_diagram c d Hd) as [-> _]. reflexivity.
  - destruct (lifecycle_without_diagram c Hd) as [_ ->]. by rewrite Hd.
Qed.

Lemma listeners_of_mount c d :
  diagram_of c = Some d →
  listeners_of (componentDidMount c) = listeners d ++ [own_subscription c].
Proof.
  intros Hd. unfold listeners_of.
  destruct (componentDidMount_diagram c d Hd) as [-> _]. reflexivity.
Qed.

Lemma calls_on_mount c d e :
  diagram_of c = Some d →
  calls_on (componentDidMount c) e
  = raiseDiagramEvent d e
    ++ (if decide ("ChangedSelection"%string = ev_name e)
        then [(onDiagramEvent (wrapper_props c), e)] else []).
Proof.
  intros Hd. unfold calls_on.
  destruct (componentDidMount_diagram c d Hd) as [-> _].
  apply raiseDiagramEvent_add.
Qed.

Lemma diagram_eta d : {| listeners := listeners d |} = d.
Proof. by destruct d. Qed.

(** The guards.  Neither lifecycle method changes the props, and neither
    makes a diagram appear or disappear behind the ref; when there is no
    diagram, because the ref is still empty (as it is right after the
    constructor) or because [getDiagram()] gives [null], both methods leave
    the wrapper exactly as it was and nothing is subscribed. *)
Theorem lifecycle_guards c :
  wrapper_props (componentDidMount c) = wrapper_props c ∧
  wrapper_props (componentWillUnmount c) = wrapper_props c ∧
  (is_Some (diagram_of (componentDidMount c)) ↔ is_Some (diagram_of c)) ∧
  (is_Some (diagram_of (componentWillUnmount c)) ↔ is_Some (diagram_of c)) ∧
  (diagram_of c = None →
   componentDidMount c = c ∧ componentWillUnmount c = c ∧
   listeners_of (componentDidMount c) = [] ∧
   ∀ e, calls_on (componentDidMount c) e = []) ∧
  (∀ p, componentDidMount (constructor p) = constructor p ∧
        componentWillUnmount (constructor p) = constructor p).
Proof.
  destruct (diagram_of c) as [d|] eqn:Hd.
  - destruct (componentDidMount_diagram c d Hd) as [Hm Hpm].
    destruct (componentWillUnmount_diagram c d Hd) as [Hu Hpu].
    rewrite Hm, Hu.
    split; [exact Hpm|]. split; [exact Hpu|].
    split; [split; eauto|]. split; [split; eauto|].
    split; [discriminate|]. intros p. by split.
  - destruct (lifecycle_without_diagram c Hd) as [Hm Hu].
    rewrite Hm, Hu, Hd.
    split; [reflexivity|]. split; [reflexivity|].
    split; [reflexivity|]. split; [reflexivity|]. split.
    + intros _. split; [reflexivity|]. split; [reflexivity|].
      unfold listeners_of, calls_on. rewrite Hd. by split.
    + intros p. by split.
Qed.

(** Unmounting removes at most one subscription, and only the bridge's
    own.  Every subscription other than (['ChangedSelection'],
    [props.onDiagramEvent]) is still there afterwards, in the same order;
    when the bridge's subscription is registered the number of subscriptions
    drops by exactly one; when it is not (an unmount without a mount) the
    subscriptions are unchanged. *)
Theorem unmount_removes_only_own_subscription c :
  filter (λ y, y ≠ own_subscription c) (listeners_of (componentWillUnmount c))
  = filter (λ y, y ≠ own_subscription c) (listeners_of c) ∧
  (own_subscription c ∈ listeners_of c →
   length (listeners_of c) = S (length (listeners_of (componentWillUnmount c)))) ∧
  (own_subscription c ∉ listeners_of c →
   listeners_of (componentWillUnmount c) = listeners_of c).
Proof.
  rewrite listeners_of_unmount. split; [apply remove_first_others|]. split.
  - apply remove_first_length.
  - apply remove_first_absent.
Qed.

Lemma unmount_removes_only_own_subscription_witness :
  own_subscription busy_wrapper_0 ∈ listeners_of busy_wrapper_0 ∧
  listeners_of (componentWillUnmount busy_wrapper_0)
  = [("ChangedSelection"%string, 9%nat); ("Modified"%string, 7%nat)] ∧
  length (listeners_of busy_wrapper_0)
  = S (length (listeners_of (componentWillUnmount busy_wrapper_0))).
Proof.
  assert (Hin : own_subscription busy_wrapper_0 ∈ listeners_of busy_wrapper_0).
  { apply list_elem_of_further, list_elem_of_here. }
  split; [exact Hin|]. split; [reflexivity|].
  exact (proj1 (proj2 (unmount_removes_only_own_subscription busy_wrapper_0)) Hin).
Defined.

(** Mounting keeps every earlier subscription, in order, and adds the
    bridge's own at the end; so what earlier listeners are called with is
    not affected by the bridge. *)
Lemma mount_keeps_subscriptions c d :
  diagram_of c = Some d →
  listeners d `prefix_of` listeners_of (componentDidMount c).
Proof.
  intros Hd. rewrite (listeners_of_mount c d Hd). by eexists.
Qed.

(** Mount and unmount pair up.  On a diagram on which the bridge's
    subscription is not registered, any number of mount/unmount rounds leaves
    the diagram and the wrapper as they were: subscriptions do not pile up
    over remounts. *)
Theorem remount_rounds_leave_no_trace c d n :
  diagram_of c = Some d →
  own_subscription c ∉ listeners d →
  Nat.iter n remount c = with_diagram c d ∧
  listeners_of (Nat.iter n remount c) = listeners d.
Proof.
  intros Hd Hfresh.
  assert (Hround : remount (with_diagram c d) = with_diagram c d).
  { unfold remount, componentDidMount, componentWillUnmount. simpl.
    unfold removeDiagramListener, addDiagramListener. simpl.
    fold (own_subscription c).
    rewrite (remove_first_snoc_fresh _ _ Hfresh).
    unfold with_diagram. simpl. by rewrite diagram_eta. }
  assert (Hfirst : remount c = with_diagram c d).
  { unfold remount.
    unfold diagram_of in Hd. destruct c as [p [[[[l]|]]|]]; simpl in *; try discriminate.
    injection Hd as <-. exact Hround. }
  assert (Hiter : ∀ k, Nat.iter (S k) remount c = with_diagram c d).
  { induction k as [|k IH].
    - exact Hfirst.
    - change (Nat.iter (S (S k)) remount c) with (remount (Nat.iter (S k) remount c)).
      by rewrite IH. }
  assert (Hc : c = with_diagram c d).
  { unfold diagram_of in Hd. destruct c as [p [[[[l]|]]|]]; simpl in *; try discriminate.
    by injection Hd as <-. }
  split.
  - destruct n as [|n]; [exact Hc | apply Hiter].
  - destruct n as [|n].
    + simpl. unfold listeners_of. by rewrite Hd.
    + by rewrite Hiter.
Qed.

Lemma remount_rounds_leave_no_trace_witness :
  diagram_of mounted_wrapper_0 = Some (mkDiagram []) ∧
  (own_subscription mounted_wrapper_0 ∉ listeners (mkDiagram [])) ∧
  listeners_of (Nat.iter 3 remount mounted_wrapper_0) = [].
Proof.
  assert (Hd : diagram_of mounted_wrapper_0 = Some (mkDiagram [])) by reflexivity.
  assert (Hfresh : own_subscription mounted_wrapper_0 ∉ listeners (mkDiagram [])).
  { apply not_elem_of_nil. }
  split; [exact Hd|]. split; [exact Hfresh|].
  exact (proj2 (remount_rounds_leave_no_trace mounted_wrapper_0 (mkDiagram []) 3
                  Hd Hfresh)).
Defined.

(** No buffering, no coalescing, no reordering.  On a diagram without
    other subscriptions, the calls made while the surface raises a sequence
    of events on the mounted wrapper are exactly the selection-changed events
    of the sequence, each passed once and unchanged to [props.onDiagramEvent],
    in the order raised; after the unmount the same sequence makes no call. *)
Theorem events_forwarded_in_order c d es :
  diagram_of c = Some d →
  listeners d = [] →
  raise_all (componentDidMount c) es
  = (λ e, (onDiagramEvent (wrapper_props c), e))
    <$> filter (λ e, "ChangedSelection"%string = ev_name e) es ∧
  raise_all (remount c) es = [].
Proof.
  intros Hd Hnil. split.
  - unfold raise_all. induction es as [|e es IH]; [reflexivity|].
    rewrite fmap_cons. simpl. rewrite IH, (calls_on_mount c d e Hd).
    unfold raiseDiagramEvent at 1. rewrite Hnil. simpl.
    destruct (decide ("ChangedSelection"%string = ev_name e)) as [Heq|Hne].
    + by rewrite filter_cons_True.
    + by rewrite filter_cons_False.
  - assert (Hl : listeners_of (remount c) = []).
    { unfold remount. rewrite listeners_of_unmount.
      destruct (componentDidMount_diagram c d Hd) as [_ Hp].
      unfold own_subscription. rewrite Hp. fold (own_subscription c).
      rewrite (listeners_of_mount c d Hd), Hnil. simpl. by rewrite decide_True. }
    unfold raise_all. induction es as [|e es IH]; [reflexivity|].
    rewrite fmap_cons. simpl. rewrite IH, app_nil_r.
    unfold calls_on. unfold listeners_of in Hl.
    destruct (diagram_of (remount c)) as [d'|]; [|reflexivity].
    unfold raiseDiagramEvent. by rewrite Hl.
Qed.

Lemma events_forwarded_in_order_witness :
  diagram_of mounted_wrapper_0 = Some (mkDiagram []) ∧
  listeners (mkDiagram []) = [] ∧
  raise_all (componentDidMount mounted_wrapper_0)
    [mkDiagramEvent "ChangedSelection" 1; mkDiagramEvent "ObjectSingleClicked" 2;
     mkDiagramEvent "ChangedSelection" 3]
  = [(7%nat, mkDiagramEvent "ChangedSelection" 1);
     (7%nat, mkDiagramEvent "ChangedSelection" 3)].
Proof.
  assert (Hd : diagram_of mounted_wrapper_0 = Some (mkDiagram [])) by reflexivity.
  split; [exact Hd|]. split; [reflexivity|].
  rewrite (proj1 (events_forwarded_in_order mounted_wrapper_0 (mkDiagram [])
                    [mkDiagramEvent "ChangedSelection" 1;
                     mkDiagramEvent "ObjectSingleClicked" 2;
                     mkDiagramEvent "ChangedSelection" 3] Hd eq_refl)).
  reflexivity.
Defined.
